(** * subnet_finder: the incremental subnet allocator

    A shallow embedding of [IncrementalSubnetFinder.find_next_subnets]
    (src/subnet_finder.py) and of the part of Python's [ipaddress] module it
    calls, followed by the properties the design document states about it,
    and then of the rest of the module: the report of [print_subnet_info], the
    constructor over a client that is a parameter, and [main].

    Conventions of the embedding.
    - A Python [int] is a [Z].  An [IPv4Address] is the [Z] it wraps; the
      range check of its constructor is [IPv4Address], which raises
      [AddressValueError] outside [0, 2^32 - 1].
    - The text ["a.b.c.d/p"] (a [str] in the source) is the record [cidr] of the
      address and the prefix it spells; [str_cidr] prints it back.  The fields
      of [SubnetInfo] that the source fills with [str(...)] hold the value
      that is printed; [render] gives the record of strings.
    - A call either returns, raises, or (the [while] loop only) runs out of
      fuel: type [outcome].  [try ... except ValueError] is [try_except]. *)

From Stdlib Require Import ZArith List String Bool Lia Ascii.
From Stdlib Require Import DecimalString Sorted Permutation.
Import ListNotations.
Local Open Scope Z_scope.

(** ** Exceptions and outcomes *)

(** The text ["<address>/<prefix>"]. *)
Record cidr : Set := mk_cidr { cidr_address : Z; cidr_prefix : Z }.

(** The messages the exceptions carry, kept structured. *)
Inductive message : Set :=
| msg_not_permitted (address : Z)
    (* "<address> (>= 2**32) is not permitted as an IPv4 address", or "(< 0)" *)
| msg_not_a_network (text : cidr)
    (* "'<text>' does not appear to be an IPv4 or IPv6 network" *)
| msg_host_bits_set (text : cidr)
    (* "<text> has host bits set" *)
| msg_no_more_space (vpc_cidr : cidr) (new_prefix : Z)
    (* "No more space in VPC CIDR <vpc_cidr> for /<new_prefix> subnets" *)
| msg_error_calculating (inner : message)
    (* "Error calculating next subnet: <inner>" *)
| msg_modulo_by_zero
| msg_index_out_of_range.

(** The exception classes that can reach the caller.  [AddressValueError] is a
    subclass of [ValueError]. *)
Inductive exn : Set :=
| ValueError (m : message)
| AddressValueError (m : message)
| ZeroDivisionError (m : message)
| IndexError (m : message).

(** [isinstance(e, ValueError)] *)
Definition is_ValueError (e : exn) : bool :=
  match e with
  | ValueError _ | AddressValueError _ => true
  | ZeroDivisionError _ | IndexError _ => false
  end.

(** [str(e)] *)
Definition exn_message (e : exn) : message :=
  match e with
  | ValueError m | AddressValueError m | ZeroDivisionError m | IndexError m => m
  end.

Inductive outcome (A : Type) : Type :=
| Returns (a : A)
| Raises (e : exn)
| OutOfFuel.
Arguments Returns {A} a.
Arguments Raises {A} e.
Arguments OutOfFuel {A}.

Definition bind {A B : Type} (x : outcome A) (k : A -> outcome B) : outcome B :=
  match x with
  | Returns a => k a
  | Raises e => Raises e
  | OutOfFuel => OutOfFuel
  end.

Notation "x <- c1 ;; c2" := (bind c1 (fun x => c2))
  (at level 61, c1 at next level, right associativity).

(** [try: body  except ValueError as e: handler e] *)
Definition try_except {A : Type} (body : outcome A) (handler : exn -> outcome A)
  : outcome A :=
  match body with
  | Raises e => if is_ValueError e then handler e else Raises e
  | r => r
  end.

(** ** The part of [ipaddress] the finder uses *)

Module ipaddress.

Definition ALL_ONES : Z := 2 ^ 32 - 1.
Definition max_prefixlen : Z := 32.

(** [IPv4Address(address)] on an [int]: [_check_int_address]. *)
Definition IPv4Address (address : Z) : outcome Z :=
  if address <? 0 then Raises (AddressValueError (msg_not_permitted address))
  else if address >? ALL_ONES then Raises (AddressValueError (msg_not_permitted address))
  else Returns address.

(** [IPv4Address.__add__] and [__sub__] with an [int]. *)
Definition add (self other : Z) : outcome Z := IPv4Address (self + other).
Definition sub (self other : Z) : outcome Z := IPv4Address (self - other).

(** [_ip_int_from_prefix] *)
Definition ip_int_from_prefix (prefixlen : Z) : Z :=
  Z.lxor ALL_ONES (Z.shiftr ALL_ONES prefixlen).

(** An [IPv4Network] object: its [network_address] and [_prefixlen]; the
    [netmask] is kept with it as in the library. *)
Record IPv4Network : Set := mk_network {
  network_address : Z;
  netmask : Z;
  prefixlen : Z
}.

Definition hostmask (n : IPv4Network) : Z := Z.lxor (netmask n) ALL_ONES.

Definition broadcast_address (n : IPv4Network) : Z :=
  Z.lor (network_address n) (hostmask n).

Definition num_addresses (n : IPv4Network) : Z :=
  broadcast_address n - network_address n + 1.

(** [ip_network(text, strict)].  The address part of the text must be an IPv4
    address and the part after the slash a prefix length in [0, 32]; otherwise
    the IPv4 and the IPv6 constructors both refuse the text and [ip_network]
    raises a plain [ValueError].  With [strict], host bits in the address are
    an error; without, they are masked away. *)
Definition ip_network (text : cidr) (strict : bool) : outcome IPv4Network :=
  let address := cidr_address text in
  let mask := cidr_prefix text in
  if negb ((0 <=? address) && (address <=? ALL_ONES)) then
    Raises (ValueError (msg_not_a_network text))
  else if negb ((0 <=? mask) && (mask <=? max_prefixlen)) then
    Raises (ValueError (msg_not_a_network text))
  else
    let netmask := ip_int_from_prefix mask in
    let packed := address in
    if Z.land packed netmask =? packed then
      Returns (mk_network address netmask mask)
    else if strict then
      Raises (ValueError (msg_host_bits_set text))
    else
      Returns (mk_network (Z.land packed netmask) netmask mask).

(** [a.subnet_of(b)] *)
Definition subnet_of (a b : IPv4Network) : bool :=
  (network_address b <=? network_address a) &&
  (broadcast_address b >=? broadcast_address a).

(** [str(network)]: the text ["<network_address>/<prefixlen>"]. *)
Definition str (n : IPv4Network) : cidr :=
  mk_cidr (network_address n) (prefixlen n).

End ipaddress.

(** ** The finder *)

(** [@dataclass SubnetInfo] *)
Record SubnetInfo : Set := mk_SubnetInfo {
  cidr_block : cidr;
  network_address : Z;
  broadcast_address : Z;
  first_usable : Z;
  last_usable : Z;
  usable_ips : Z;
  suggested_az : string
}.

(** The fields of [IncrementalSubnetFinder] that [find_next_subnets] reads.
    [vpc_id] and the [ec2] client are used only to fetch these three. *)
Record IncrementalSubnetFinder : Set := mk_finder {
  vpc_cidr : cidr;
  existing_subnets : list cidr;
  available_azs : list string
}.

(** [xs[i]] for [0 <= i]. *)
Definition getitem {A : Type} (xs : list A) (i : Z) : outcome A :=
  match nth_error xs (Z.to_nat i) with
  | Some x => Returns x
  | None => Raises (IndexError msg_index_out_of_range)
  end.

(** [a % b] on [int]s. *)
Definition py_mod (a b : Z) : outcome Z :=
  if b =? 0 then Raises (ZeroDivisionError msg_modulo_by_zero)
  else Returns (a mod b).

Definition len {A : Type} (xs : list A) : Z := Z.of_nat (List.length xs).

(** [_find_last_ip] *)
Definition _find_last_ip (self : IncrementalSubnetFinder) : outcome (option Z) :=
  match existing_subnets self with
  | [] => Returns None
  | first :: _ =>
      last_subnet <- ipaddress.ip_network (last (existing_subnets self) first) true ;;
      Returns (Some (ipaddress.broadcast_address last_subnet))
  end.

(** Lines 61-69: the address the scan starts at. *)
Definition start_ip (self : IncrementalSubnetFinder) (vpc_net : ipaddress.IPv4Network)
  : outcome Z :=
  last_ip <- _find_last_ip self ;;
  match last_ip with
  | None => Returns (ipaddress.network_address vpc_net)
  | Some last_ip => ipaddress.add last_ip 1
  end.

(** Lines 75-95: one pass through the body of the [while] loop, from the
    candidate list and the scan pointer to their next values. *)
Definition loop_body (self : IncrementalSubnetFinder) (vpc_net : ipaddress.IPv4Network)
    (new_prefix : Z) (available_subnets : list SubnetInfo) (current_ip : Z)
  : outcome (list SubnetInfo * Z) :=
  try_except
    (next_net <- ipaddress.ip_network (mk_cidr current_ip new_prefix) false ;;
     if ipaddress.subnet_of next_net vpc_net then
       first <- ipaddress.add (ipaddress.network_address next_net) 1 ;;
       last <- ipaddress.sub (ipaddress.broadcast_address next_net) 1 ;;
       i <- py_mod (len available_subnets) (len (available_azs self)) ;;
       az <- getitem (available_azs self) i ;;
       let subnet_info :=
         {| cidr_block := ipaddress.str next_net;
            network_address := ipaddress.network_address next_net;
            broadcast_address := ipaddress.broadcast_address next_net;
            first_usable := first;
            last_usable := last;
            usable_ips := ipaddress.num_addresses next_net - 2;
            suggested_az := az |} in
       let available_subnets := available_subnets ++ [subnet_info] in
       current_ip <- ipaddress.add (ipaddress.broadcast_address next_net) 1 ;;
       Returns (available_subnets, current_ip)
     else
       Raises (ValueError (msg_no_more_space (vpc_cidr self) new_prefix)))
    (fun e => Raises (ValueError (msg_error_calculating (exn_message e)))).

(** Lines 74-97: the [while] loop, with a bound on the number of passes. *)
Fixpoint while_loop (fuel : nat) (self : IncrementalSubnetFinder)
    (vpc_net : ipaddress.IPv4Network) (new_prefix count : Z)
    (available_subnets : list SubnetInfo) (current_ip : Z)
  : outcome (list SubnetInfo) :=
  match fuel with
  | O => OutOfFuel
  | S fuel =>
      if len available_subnets <? count then
        match loop_body self vpc_net new_prefix available_subnets current_ip with
        | Returns (available_subnets, current_ip) =>
            while_loop fuel self vpc_net new_prefix count available_subnets current_ip
        | Raises e => Raises e
        | OutOfFuel => OutOfFuel
        end
      else Returns available_subnets
  end.

Definition find_next_subnets_fuel (fuel : nat) (self : IncrementalSubnetFinder)
    (new_prefix count : Z) : outcome (list SubnetInfo) :=
  vpc_net <- ipaddress.ip_network (vpc_cidr self) true ;;
  start_ip <- start_ip self vpc_net ;;
  while_loop fuel self vpc_net new_prefix count [] start_ip.

(** [find_next_subnets], run with one pass more than [count]: enough for every
    call, see [find_next_subnets_fuel_enough]. *)
Definition find_next_subnets (self : IncrementalSubnetFinder)
    (new_prefix count : Z) : outcome (list SubnetInfo) :=
  find_next_subnets_fuel (S (Z.to_nat count)) self new_prefix count.

(** ** Printing

    [str] of an [int], of an [IPv4Address] and of a network text, and the
    record of strings [SubnetInfo] is in the source. *)

Definition str_int (z : Z) : string := NilZero.string_of_int (Z.to_int z).

Definition str_IPv4Address (a : Z) : string :=
  (str_int (a / 2 ^ 24 mod 256) ++ "." ++ str_int (a / 2 ^ 16 mod 256) ++ "." ++
   str_int (a / 2 ^ 8 mod 256) ++ "." ++ str_int (a mod 256))%string.

Definition str_cidr (t : cidr) : string :=
  (str_IPv4Address (cidr_address t) ++ "/" ++ str_int (cidr_prefix t))%string.

Record SubnetInfo_str : Set := mk_SubnetInfo_str {
  cidr_block_str : string;
  network_address_str : string;
  broadcast_address_str : string;
  first_usable_str : string;
  last_usable_str : string;
  usable_ips_int : Z;
  suggested_az_str : string
}.

Definition render (s : SubnetInfo) : SubnetInfo_str :=
  {| cidr_block_str := str_cidr (cidr_block s);
     network_address_str := str_IPv4Address (network_address s);
     broadcast_address_str := str_IPv4Address (broadcast_address s);
     first_usable_str := str_IPv4Address (first_usable s);
     last_usable_str := str_IPv4Address (last_usable s);
     usable_ips_int := usable_ips s;
     suggested_az_str := suggested_az s |}.

(** The address [a.b.c.d]. *)
Definition dotted (a b c d : Z) : Z := a * 2 ^ 24 + b * 2 ^ 16 + c * 2 ^ 8 + d.

(** ** Blocks and address ranges, as the design document speaks of them *)

(** Number of addresses of a block of the given prefix length. *)
Definition block_size (prefix : Z) : Z := 2 ^ (32 - prefix).

Definition block_first (b : cidr) : Z := cidr_address b.
Definition block_last (b : cidr) : Z := cidr_address b + block_size (cidr_prefix b) - 1.

(** An AddressBlock: prefix length in [0, 32], base address a 32-bit address
    whose trailing [32 - prefix] bits are zero. *)
Definition AddressBlock (b : cidr) : Prop :=
  (0 <= cidr_prefix b <= 32) /\
  (0 <= cidr_address b <= ipaddress.ALL_ONES) /\
  cidr_address b mod block_size (cidr_prefix b) = 0.

(** Two closed ranges share an address. *)
Definition intersects (lo1 hi1 lo2 hi2 : Z) : bool :=
  (lo1 <=? hi2) && (lo2 <=? hi1).

Definition blocks_overlap (a b : cidr) : bool :=
  intersects (block_first a) (block_last a) (block_first b) (block_last b).

Definition candidate_overlaps (s : SubnetInfo) (b : cidr) : bool :=
  intersects (network_address s) (broadcast_address s) (block_first b) (block_last b).

Definition block_within (b parent : cidr) : bool :=
  (block_first parent <=? block_first b) && (block_last b <=? block_last parent).

Definition sorted_by_base (blocks : list cidr) : Prop :=
  StronglySorted (fun a b => cidr_address a <= cidr_address b) blocks.

Definition pairwise_disjoint (blocks : list cidr) : Prop :=
  ForallOrdPairs (fun a b => blocks_overlap a b = false) blocks.

(** [h] is the highest address among the blocks. *)
Definition highest_address (blocks : list cidr) (h : Z) : Prop :=
  (exists b, In b blocks /\ block_last b = h) /\
  Forall (fun b => block_last b <= h) blocks.

(** The record the loop body appends for the network [next_net], labelled [az]. *)
Definition subnet_info_of (next_net : ipaddress.IPv4Network) (az : string) : SubnetInfo :=
  {| cidr_block := ipaddress.str next_net;
     network_address := ipaddress.network_address next_net;
     broadcast_address := ipaddress.broadcast_address next_net;
     first_usable := ipaddress.network_address next_net + 1;
     last_usable := ipaddress.broadcast_address next_net - 1;
     usable_ips := ipaddress.num_addresses next_net - 2;
     suggested_az := az |}.

(** The error [find_next_subnets] raises when the candidate leaves the parent:
    [ValueError("Error calculating next subnet: No more space in VPC CIDR ...")]. *)
Definition is_exhaustion (e : exn) : bool :=
  match e with
  | ValueError (msg_error_calculating (msg_no_more_space _ _)) => true
  | _ => false
  end.

(** The preconditions of the design document's contract. *)
Definition precondition_violated (self : IncrementalSubnetFinder)
    (new_prefix count : Z) : Prop :=
  new_prefix < 0 \/ 32 < new_prefix \/
  new_prefix < cidr_prefix (vpc_cidr self) \/
  count < 1 \/
  available_azs self = [].

(** The outcome is an error of a kind other than exhaustion. *)
Definition reports_invalid_request (r : outcome (list SubnetInfo)) : Prop :=
  exists e, r = Raises e /\ is_exhaustion e = false.

(** [n] is the network object of the block [base/p]. *)
Record is_block (n : ipaddress.IPv4Network) (base p : Z) : Prop := mk_is_block {
  is_block_prefix : 0 <= p <= 32;
  is_block_prefixlen : ipaddress.prefixlen n = p;
  is_block_netmask : ipaddress.netmask n = ipaddress.ip_int_from_prefix p;
  is_block_base : ipaddress.network_address n = base;
  is_block_nonneg : 0 <= base;
  is_block_aligned : base mod block_size p = 0;
  is_block_top : base + block_size p - 1 <= ipaddress.ALL_ONES
}.

(** The scan pointer at the start of pass [i] of a call that started at
    [start] and has accepted the candidates [l]: [start] for the first pass,
    afterwards one past the broadcast address of the candidate before. *)
Definition scan_pointer (start : Z) (l : list SubnetInfo) (i : nat) : Z :=
  match i with
  | O => start
  | S k => match nth_error l k with
           | Some s => broadcast_address s + 1
           | None => start
           end
  end.

(** The degenerate usable-address annotations of a candidate of prefix length
    31 or 32 that the design document asks for. *)
Definition degenerate_annotations (prefix : Z) (s : SubnetInfo) : Prop :=
  (31 <= prefix -> usable_ips s = block_size prefix) /\
  (prefix = 32 -> first_usable s = network_address s /\
                  last_usable s = network_address s).

(** The generic annotations the code computes. *)
Definition generic_annotations (prefix : Z) (s : SubnetInfo) : Prop :=
  usable_ips s = block_size prefix - 2 /\
  first_usable s = network_address s + 1 /\
  last_usable s = broadcast_address s - 1.

(** ** Example calls *)

(** Parent 10.0.0.0/16, nothing allocated, labels a, b, c. *)
Definition finder_empty_16 : IncrementalSubnetFinder :=
  {| vpc_cidr := mk_cidr (dotted 10 0 0 0) 16;
     existing_subnets := [];
     available_azs := ["a"; "b"; "c"]%string |}.

(** Parent 10.0.0.0/16 with 10.0.0.0/25 allocated. *)
Definition finder_after_25 : IncrementalSubnetFinder :=
  {| vpc_cidr := mk_cidr (dotted 10 0 0 0) 16;
     existing_subnets := [mk_cidr (dotted 10 0 0 0) 25];
     available_azs := ["a"]%string |}.

(** Parent 10.0.0.0/24, nothing allocated. *)
Definition finder_empty_24 : IncrementalSubnetFinder :=
  {| vpc_cidr := mk_cidr (dotted 10 0 0 0) 24;
     existing_subnets := [];
     available_azs := ["a"]%string |}.

(** Parent 10.0.0.0/24 with 10.0.0.0/26 and 10.0.0.64/26 allocated. *)
Definition finder_after_two_26 : IncrementalSubnetFinder :=
  {| vpc_cidr := mk_cidr (dotted 10 0 0 0) 24;
     existing_subnets := [mk_cidr (dotted 10 0 0 0) 26; mk_cidr (dotted 10 0 0 64) 26];
     available_azs := ["a"]%string |}.

(** The candidate [base/prefix] with the annotations of the code. *)
Definition candidate (base prefix : Z) (az : string) : SubnetInfo :=
  {| cidr_block := mk_cidr base prefix;
     network_address := base;
     broadcast_address := base + block_size prefix - 1;
     first_usable := base + 1;
     last_usable := base + block_size prefix - 1 - 1;
     usable_ips := block_size prefix - 2;
     suggested_az := az |}.

(** 10.0.0.0/24, 10.0.1.0/24 and 10.0.2.0/24, labelled a, b and c. *)
Definition three_blocks : list SubnetInfo :=
  [candidate (dotted 10 0 0 0) 24 "a";
   candidate (dotted 10 0 1 0) 24 "b";
   candidate (dotted 10 0 2 0) 24 "c"].

(** * The rest of the module *)

(** ** The result of a call, in closed form *)

(** The base of the block of the given prefix length that holds [a]. *)
Definition floor_to_block (prefix a : Z) : Z :=
  block_size prefix * (a / block_size prefix).

(** [available_azs[i % len(available_azs)]] *)
Definition label_at (azs : list string) (i : nat) : string :=
  nth (Z.to_nat (Z.of_nat i mod len azs)) azs ""%string.

(** Candidate [i] of a call whose first candidate has base [first_base]. *)
Definition nth_candidate (self : IncrementalSubnetFinder) (new_prefix first_base : Z)
    (i : nat) : SubnetInfo :=
  candidate (first_base + Z.of_nat i * block_size new_prefix) new_prefix
            (label_at (available_azs self) i).

(** The [n] candidates from the scan start on. *)
Definition expected_candidates (self : IncrementalSubnetFinder) (new_prefix start : Z)
    (n : nat) : list SubnetInfo :=
  map (nth_candidate self new_prefix (floor_to_block new_prefix start)) (seq 0 n).

(** When a call that starts its scan at [start] in the parent [parent] can
    return [count] candidates: the prefix length is one, there is a label, the
    first block does not begin below the parent, the last one ends in the
    parent and below 255.255.255.255, and the first is not 0.0.0.0/32. *)
Definition has_room (self : IncrementalSubnetFinder) (new_prefix count start : Z) : Prop :=
  0 <= new_prefix <= 32 /\
  available_azs self <> [] /\
  block_first (vpc_cidr self) <= floor_to_block new_prefix start /\
  floor_to_block new_prefix start + count * block_size new_prefix - 1
    <= block_last (vpc_cidr self) /\
  floor_to_block new_prefix start + count * block_size new_prefix - 1
    < ipaddress.ALL_ONES /\
  2 <= floor_to_block new_prefix start + block_size new_prefix.

(** ** Comparing calls *)

(** Where a candidate lies and its address annotations: everything but the
    label. *)
Definition placement (s : SubnetInfo) : cidr * Z * Z * Z * Z * Z :=
  (cidr_block s, network_address s, broadcast_address s,
   first_usable s, last_usable s, usable_ips s).

Definition outcome_map {A B : Type} (f : A -> B) (x : outcome A) : outcome B :=
  match x with
  | Returns a => Returns (f a)
  | Raises e => Raises e
  | OutOfFuel => OutOfFuel
  end.

(** The finder after the candidates [l] were created as subnets: their blocks
    follow the existing ones. *)
Definition commit (self : IncrementalSubnetFinder) (l : list SubnetInfo)
  : IncrementalSubnetFinder :=
  {| vpc_cidr := vpc_cidr self;
     existing_subnets := existing_subnets self ++ map cidr_block l;
     available_azs := available_azs self |}.

(** ** Standard output

    What a function prints is the list of the arguments of its [print] calls,
    in order; a function that prints returns this list with its outcome. *)

Definition printing (A : Type) : Type := (list string * outcome A)%type.

(** [print(line)] *)
Definition print (line : string) : printing unit := ([line], Returns tt).

(** A call that prints nothing. *)
Definition quiet {A : Type} (x : outcome A) : printing A := ([], x).

Definition then_print {A B : Type} (x : printing A) (k : A -> printing B) : printing B :=
  match x with
  | (printed, Returns a) => let (printed', r) := k a in (printed ++ printed', r)
  | (printed, Raises e) => (printed, Raises e)
  | (printed, OutOfFuel) => (printed, OutOfFuel)
  end.

Notation "x <~ c1 ;; c2" := (then_print c1 (fun x => c2))
  (at level 61, c1 at next level, right associativity).

Definition newline : string := String (ascii_of_nat 10) EmptyString.

Definition spaces (n : nat) : string := string_of_list_ascii (repeat " "%char n).

(** [f"{s:<width}"] *)
Definition ljust (width : nat) (s : string) : string :=
  (s ++ spaces (width - String.length s))%string.

(** [str(e)].  The text of the [ZeroDivisionError] of [%] differs between
    versions of the interpreter and is a parameter. *)
Fixpoint str_message (zero_division_text : string) (m : message) : string :=
  match m with
  | msg_not_permitted address =>
      if address <? 0
      then (str_int address ++ " (< 0) is not permitted as an IPv4 address")%string
      else (str_int address ++ " (>= 2**32) is not permitted as an IPv4 address")%string
  | msg_not_a_network text =>
      ("'" ++ str_cidr text ++ "' does not appear to be an IPv4 or IPv6 network")%string
  | msg_host_bits_set text => (str_cidr text ++ " has host bits set")%string
  | msg_no_more_space vpc_cidr new_prefix =>
      ("No more space in VPC CIDR " ++ str_cidr vpc_cidr ++ " for /"
       ++ str_int new_prefix ++ " subnets")%string
  | msg_error_calculating inner =>
      ("Error calculating next subnet: " ++ str_message zero_division_text inner)%string
  | msg_modulo_by_zero => zero_division_text
  | msg_index_out_of_range => "list index out of range"%string
  end.

(** ** print_subnet_info *)

(** Lines 107-109: the loop over the existing subnets. *)
Fixpoint print_existing (subnets : list cidr) : printing unit :=
  match subnets with
  | [] => ([], Returns tt)
  | subnet :: rest =>
      network <~ quiet (ipaddress.ip_network subnet true) ;;
      _ <~ print ("CIDR: " ++ ljust 18 (str_cidr subnet) ++ " (Usable IPs: "
                  ++ str_int (ipaddress.num_addresses network - 2) ++ ")")%string ;;
      print_existing rest
  end.

(** Lines 116-122: the loop over [enumerate(next_subnets, i)]. *)
Fixpoint print_candidates (i : Z) (next_subnets : list SubnetInfo) : printing unit :=
  match next_subnets with
  | [] => ([], Returns tt)
  | subnet :: rest =>
      _ <~ print (newline ++ "Subnet " ++ str_int i ++ " (AZ: "
                  ++ suggested_az subnet ++ "):")%string ;;
      _ <~ print ("CIDR Block: " ++ str_cidr (cidr_block subnet))%string ;;
      _ <~ print ("Network Address: "
                  ++ str_IPv4Address (network_address subnet))%string ;;
      _ <~ print ("Broadcast Address: "
                  ++ str_IPv4Address (broadcast_address subnet))%string ;;
      _ <~ print ("Usable IP Range: " ++ str_IPv4Address (first_usable subnet)
                  ++ " - " ++ str_IPv4Address (last_usable subnet))%string ;;
      _ <~ print ("Number of usable IPs: " ++ str_int (usable_ips subnet))%string ;;
      print_candidates (i + 1) rest
  end.

(** Lines 101-122: the body of the [try]. *)
Definition print_subnet_info_try (vpc_id : string) (self : IncrementalSubnetFinder)
    (new_prefix : Z) : printing unit :=
  _ <~ print (newline ++ "=== VPC Information ===")%string ;;
  _ <~ print ("VPC ID: " ++ vpc_id)%string ;;
  _ <~ print ("VPC CIDR: " ++ str_cidr (vpc_cidr self))%string ;;
  _ <~ print (newline ++ "=== Existing Subnets ===")%string ;;
  _ <~ match existing_subnets self with
       | [] => print "No existing subnets found"
       | _ :: _ => print_existing (existing_subnets self)
       end ;;
  _ <~ print (newline ++ "=== Next Available /" ++ str_int new_prefix
              ++ " Subnets ===")%string ;;
  next_subnets <~ quiet (find_next_subnets self new_prefix 3) ;;
  print_candidates 1 next_subnets.

(** [print_subnet_info]; [vpc_id] is [self.vpc_id]. *)
Definition print_subnet_info (zero_division_text vpc_id : string)
    (self : IncrementalSubnetFinder) (new_prefix : Z) : printing unit :=
  match print_subnet_info_try vpc_id self new_prefix with
  | (printed, Raises e) =>
      if is_ValueError e then
        (printed ++ ["Error: " ++ str_message zero_division_text (exn_message e)]%string,
         Returns tt)
      else
        (printed
         ++ ["Unexpected error: " ++ str_message zero_division_text (exn_message e)]%string,
         Returns tt)
  | body => body
  end.

(** The line of the report for the existing subnet [b], when [b] is an
    AddressBlock. *)
Definition existing_line (b : cidr) : string :=
  ("CIDR: " ++ ljust 18 (str_cidr b) ++ " (Usable IPs: "
   ++ str_int (block_size (cidr_prefix b) - 2) ++ ")")%string.

(** The four lines every report starts with. *)
Definition report_header (vpc_id : string) (self : IncrementalSubnetFinder)
  : list string :=
  [(newline ++ "=== VPC Information ===")%string;
   ("VPC ID: " ++ vpc_id)%string;
   ("VPC CIDR: " ++ str_cidr (vpc_cidr self))%string;
   (newline ++ "=== Existing Subnets ===")%string].

(** The report down to the title of the candidates, for existing subnets that
    are AddressBlocks. *)
Definition report_head (vpc_id : string) (self : IncrementalSubnetFinder)
    (new_prefix : Z) : list string :=
  report_header vpc_id self
  ++ match existing_subnets self with
     | [] => ["No existing subnets found"%string]
     | _ :: _ => map existing_line (existing_subnets self)
     end
  ++ [(newline ++ "=== Next Available /" ++ str_int new_prefix ++ " Subnets ===")%string].

(** The line that reports the error [e]. *)
Definition error_line (zero_division_text : string) (e : exn) : string :=
  ((if is_ValueError e then "Error: " else "Unexpected error: ")
   ++ str_message zero_division_text (exn_message e))%string.

(** The six lines of the report for candidate number [i]. *)
Definition candidate_lines (i : Z) (subnet : SubnetInfo) : list string :=
  [(newline ++ "Subnet " ++ str_int i ++ " (AZ: " ++ suggested_az subnet ++ "):")%string;
   ("CIDR Block: " ++ str_cidr (cidr_block subnet))%string;
   ("Network Address: " ++ str_IPv4Address (network_address subnet))%string;
   ("Broadcast Address: " ++ str_IPv4Address (broadcast_address subnet))%string;
   ("Usable IP Range: " ++ str_IPv4Address (first_usable subnet) ++ " - "
    ++ str_IPv4Address (last_usable subnet))%string;
   ("Number of usable IPs: " ++ str_int (usable_ips subnet))%string].

(** ** The EC2 client and the constructor

    The client is a parameter: what each call answers, or the exception it
    raises.  Of a response only the field the finder reads is kept: the
    [CidrBlock] of each entry of [response['Vpcs']] and of
    [response['Subnets']], the [ZoneName] of each entry of
    [response['AvailabilityZones']]. *)

(** An exception of an API call with its [str]: a [ClientError], or another
    one ([EndpointConnectionError], [NoCredentialsError], ...). *)
Inductive api_exception : Set :=
| ClientError (text : string)
| OtherException (text : string).

Inductive api_result (A : Type) : Type :=
| Responds (a : A)
| Fails (e : api_exception).
Arguments Responds {A} a.
Arguments Fails {A} e.

Record ec2_client : Type := mk_client {
  describe_vpcs : string -> api_result (list cidr);
  describe_subnets : string -> api_result (list cidr);
  describe_availability_zones : api_result (list string)
}.

(** A value, or the exception raised instead. *)
Inductive raised (E A : Type) : Type :=
| Value (a : A)
| Exception (e : E).
Arguments Value {E A} a.
Arguments Exception {E A} e.

(** The exceptions of the constructor. *)
Inductive init_exception : Set :=
| VpcNotFound (vpc_id : string)
    (* ValueError("VPC <vpc_id> not found!") *)
| ApiException (e : api_exception)
| NoVpcInResponse.
    (* IndexError: response['Vpcs'] is empty *)

(** [sub in s] *)
Definition contains (sub s : string) : bool :=
  match index 0 sub s with
  | Some _ => true
  | None => false
  end.

(** [sorted] on the texts of blocks: the order of [str], character by
    character; a stable sort, here by insertion. *)
Definition text_leb (a b : cidr) : bool := String.leb (str_cidr a) (str_cidr b).

Fixpoint insert_sorted (x : cidr) (l : list cidr) : list cidr :=
  match l with
  | [] => [x]
  | y :: rest => if text_leb x y then x :: y :: rest else y :: insert_sorted x rest
  end.

Definition sorted (l : list cidr) : list cidr := fold_right insert_sorted [] l.

(** [_get_vpc_cidr] *)
Definition _get_vpc_cidr (ec2 : ec2_client) (vpc_id : string)
  : raised init_exception cidr :=
  match describe_vpcs ec2 vpc_id with
  | Responds vpcs =>
      match vpcs with
      | vpc :: _ => Value vpc
      | [] => Exception NoVpcInResponse
      end
  | Fails (ClientError text) =>
      if contains "InvalidVpcID.NotFound" text then Exception (VpcNotFound vpc_id)
      else Exception (ApiException (ClientError text))
  | Fails e => Exception (ApiException e)
  end.

(** [_get_existing_subnets], with what it prints. *)
Definition _get_existing_subnets (ec2 : ec2_client) (vpc_id : string)
  : list string * raised init_exception (list cidr) :=
  match describe_subnets ec2 vpc_id with
  | Responds subnets => ([], Value (sorted subnets))
  | Fails (ClientError text) => ([("Error getting subnets: " ++ text)%string], Value [])
  | Fails e => ([], Exception (ApiException e))
  end.

(** [_get_availability_zones], with what it prints. *)
Definition _get_availability_zones (ec2 : ec2_client)
  : list string * raised init_exception (list string) :=
  match describe_availability_zones ec2 with
  | Responds azs => ([], Value azs)
  | Fails (ClientError text) => ([("Error getting AZs: " ++ text)%string], Value [])
  | Fails e => ([], Exception (ApiException e))
  end.

(** [__init__], given the client that [boto3.client('ec2', region_name=region)]
    made: what it prints, and the finder or the exception. *)
Definition __init__ (ec2 : ec2_client) (vpc_id : string)
  : list string * raised init_exception IncrementalSubnetFinder :=
  match _get_vpc_cidr ec2 vpc_id with
  | Exception e => ([], Exception e)
  | Value vpc_cidr =>
      match _get_existing_subnets ec2 vpc_id with
      | (printed, Exception e) => (printed, Exception e)
      | (printed, Value existing_subnets) =>
          match _get_availability_zones ec2 with
          | (printed', Exception e) => (printed ++ printed', Exception e)
          | (printed', Value available_azs) =>
              (printed ++ printed',
               Value {| vpc_cidr := vpc_cidr;
                        existing_subnets := existing_subnets;
                        available_azs := available_azs |})
          end
      end
  end.

(** ** main *)

(** How [main] ends: it returns, [sys.exit(code)], or an exception of the
    constructor that nothing catches. *)
Inductive main_end : Set :=
| Finished
| SystemExit (code : Z)
| Uncaught (e : init_exception).

Definition usage : list string :=
  ["Usage: ./subnet_finder.py <vpc-id> <subnet-prefix> [region]"%string;
   "Example: ./subnet_finders.py vpc-1234567890abcdef0 27 us-east-1"%string].

(** Lines 136-139: [int(sys.argv[2])] and the range test, inside the [try].
    [int] is a parameter: the integer a text spells, or the text of the
    [ValueError]. *)
Definition parse_prefix (int : string -> raised string Z) (text : string)
  : raised string Z :=
  match int text with
  | Value subnet_prefix =>
      if negb ((16 <=? subnet_prefix) && (subnet_prefix <? 29))
      then Exception "Subnet prefix must be between /16 and /28"%string
      else Value subnet_prefix
  | Exception text => Exception text
  end.

(** [main], for [sys.argv = argv]; [boto3_client region] is
    [boto3.client('ec2', region_name=region)]. *)
Definition main (int : string -> raised string Z)
    (boto3_client : option string -> ec2_client) (zero_division_text : string)
    (argv : list string) : list string * main_end :=
  if negb ((List.length argv =? 3)%nat || (List.length argv =? 4)%nat) then
    (usage, SystemExit 1)
  else
    let vpc_id := nth 1 argv ""%string in
    match parse_prefix int (nth 2 argv ""%string) with
    | Exception text => ([("Error: " ++ text)%string], SystemExit 1)
    | Value subnet_prefix =>
        let region :=
          if (List.length argv =? 4)%nat then Some (nth 3 argv ""%string) else None in
        match __init__ (boto3_client region) vpc_id with
        | (printed, Exception e) => (printed, Uncaught e)
        | (printed, Value finder) =>
            (printed
             ++ fst (print_subnet_info zero_division_text vpc_id finder subnet_prefix),
             Finished)
        end
    end.

(** ** Example clients and command lines *)

(** A client that answers every call the same way. *)
Definition client_of (vpcs subnets : api_result (list cidr))
    (zones : api_result (list string)) : ec2_client :=
  {| describe_vpcs := fun _ => vpcs;
     describe_subnets := fun _ => subnets;
     describe_availability_zones := zones |}.

(** VPC 10.0.0.0/16 with the subnets 10.0.9.0/24 and 10.0.10.0/24, one zone. *)
Definition client_9_10 : ec2_client :=
  client_of (Responds [mk_cidr (dotted 10 0 0 0) 16])
            (Responds [mk_cidr (dotted 10 0 9 0) 24; mk_cidr (dotted 10 0 10 0) 24])
            (Responds ["a"%string]).

(** An [int] that reads the texts "8" and "24" only. *)
Definition int_8_24 (text : string) : raised string Z :=
  if (text =? "24")%string then Value 24
  else if (text =? "8")%string then Value 8
  else Exception ("invalid literal for int() with base 10: '" ++ text ++ "'")%string.

(** 10.0.0.128/26 and 10.0.0.192/26, labelled a. *)
Definition two_blocks_26 : list SubnetInfo :=
  [candidate (dotted 10 0 0 128) 26 "a"; candidate (dotted 10 0 0 192) 26 "a"].

(** * Facts *)

(** ** Outcomes *)

Lemma bind_Returns {A B : Type} (x : outcome A) (k : A -> outcome B) (b : B) :
  bind x k = Returns b -> exists a, x = Returns a /\ k a = Returns b.
Proof.
  destruct x as [a | e |]; simpl; intros H; try discriminate.
  exists a. split; [reflexivity | exact H].
Qed.

Lemma bind_not_OutOfFuel {A B : Type} (x : outcome A) (k : A -> outcome B) :
  x <> OutOfFuel -> (forall a, k a <> OutOfFuel) -> bind x k <> OutOfFuel.
Proof.
  intros Hx Hk. destruct x as [a | e |]; simpl; [apply Hk | discriminate | elim Hx; reflexivity].
Qed.

Lemma try_except_Returns {A : Type} (body : outcome A) handler (a : A) :
  (forall e, handler e <> Returns a) ->
  try_except body handler = Returns a -> body = Returns a.
Proof.
  intros Hh. destruct body as [a' | e |]; simpl; intros H; try assumption.
  destruct (is_ValueError e); [elim (Hh e H) | discriminate].
Qed.

(** ** Powers of two and block sizes *)

Lemma ALL_ONES_value : ipaddress.ALL_ONES = 4294967295.
Proof. reflexivity. Qed.

Lemma ALL_ONES_ones : ipaddress.ALL_ONES = Z.ones 32.
Proof. reflexivity. Qed.

Lemma block_size_pos p : p <= 32 -> 0 < block_size p.
Proof. intros Hp. unfold block_size. apply Z.pow_pos_nonneg; lia. Qed.

Lemma block_size_divides_space p :
  0 <= p <= 32 -> block_size p * 2 ^ p = ipaddress.ALL_ONES + 1.
Proof.
  intros Hp. unfold block_size. rewrite <- Z.pow_add_r by lia.
  replace (32 - p + p) with 32 by lia. reflexivity.
Qed.

(** A smaller prefix length is a block at least twice as large. *)
Lemma block_size_double p q :
  0 <= p -> p < q -> q <= 32 -> 2 * block_size q <= block_size p.
Proof.
  intros H0 Hlt Hq. unfold block_size.
  replace (32 - p) with (1 + (q - p - 1) + (32 - q)) by lia.
  rewrite !Z.pow_add_r by lia. change (2 ^ 1) with 2.
  assert (0 < 2 ^ (q - p - 1)) by (apply Z.pow_pos_nonneg; lia).
  assert (0 < 2 ^ (32 - q)) by (apply Z.pow_pos_nonneg; lia).
  nia.
Qed.

(** A block size divides every larger block size. *)
Lemma block_size_multiple p q :
  0 <= p -> p <= q -> q <= 32 -> block_size p = block_size q * 2 ^ (q - p).
Proof.
  intros H0 Hle Hq. unfold block_size. rewrite <- Z.pow_add_r by lia.
  f_equal. lia.
Qed.

(** ** Masks *)

Lemma netmask_testbit p i :
  0 <= p <= 32 -> 0 <= i ->
  Z.testbit (ipaddress.ip_int_from_prefix p) i = (32 - p <=? i) && (i <? 32).
Proof.
  intros Hp Hi. unfold ipaddress.ip_int_from_prefix. rewrite ALL_ONES_ones.
  rewrite Z.lxor_spec, Z.shiftr_spec by lia.
  rewrite !Z.testbit_ones_nonneg by lia.
  destruct (Z.leb_spec (32 - p) i), (Z.ltb_spec i 32), (Z.ltb_spec (i + p) 32);
    cbn [xorb andb]; try reflexivity; lia.
Qed.

Lemma testbit_above_32 a i :
  0 <= a <= ipaddress.ALL_ONES -> 32 <= i -> Z.testbit a i = false.
Proof.
  intros Ha Hi. rewrite ALL_ONES_value in Ha.
  destruct (Z.eq_dec a 0) as [-> | Hne]; [apply Z.testbit_0_l |].
  apply Z.bits_above_log2; [lia |].
  apply Z.lt_le_trans with 32; [| exact Hi].
  apply Z.log2_lt_pow2; [lia |]. change (2 ^ 32) with 4294967296. lia.
Qed.

(** The netmask of prefix length [p] clears the low [32 - p] bits: masking
    rounds an address down to a multiple of the block size. *)
Lemma land_netmask a p :
  0 <= p <= 32 -> 0 <= a <= ipaddress.ALL_ONES ->
  Z.land a (ipaddress.ip_int_from_prefix p) = block_size p * (a / block_size p).
Proof.
  intros Hp Ha. unfold block_size.
  assert (E : Z.land a (ipaddress.ip_int_from_prefix p)
              = Z.shiftl (Z.shiftr a (32 - p)) (32 - p)).
  { apply Z.bits_inj'. intros i Hi.
    rewrite Z.land_spec, netmask_testbit by lia.
    rewrite Z.shiftl_spec by lia.
    destruct (Z.leb_spec (32 - p) i) as [Hle | Hlt].
    - rewrite Z.shiftr_spec by lia.
      replace (i - (32 - p) + (32 - p)) with i by lia.
      destruct (Z.ltb_spec i 32) as [H32 | H32]; cbn [andb].
      + apply andb_true_r.
      + rewrite andb_false_r. symmetry. apply testbit_above_32; assumption.
    - cbn [andb]. rewrite andb_false_r, Z.testbit_neg_r by lia. reflexivity. }
  rewrite E, Z.shiftl_mul_pow2, Z.shiftr_div_pow2 by lia. lia.
Qed.

Lemma hostmask_eq p :
  0 <= p <= 32 ->
  Z.lxor (ipaddress.ip_int_from_prefix p) ipaddress.ALL_ONES = block_size p - 1.
Proof.
  intros Hp. unfold block_size.
  replace (2 ^ (32 - p) - 1) with (Z.ones (32 - p)) by (rewrite Z.ones_equiv; lia).
  apply Z.bits_inj'. intros i Hi.
  rewrite Z.lxor_spec, netmask_testbit, ALL_ONES_ones by lia.
  rewrite !Z.testbit_ones_nonneg by lia.
  destruct (Z.leb_spec (32 - p) i), (Z.ltb_spec i 32), (Z.ltb_spec i (32 - p));
    cbn [xorb andb]; try reflexivity; lia.
Qed.

Lemma lor_aligned b k :
  0 <= k -> b mod 2 ^ k = 0 -> Z.lor b (2 ^ k - 1) = b + 2 ^ k - 1.
Proof.
  intros Hk Hb.
  replace (2 ^ k - 1) with (Z.ones k) by (rewrite Z.ones_equiv; lia).
  assert (D : Z.land b (Z.ones k) = 0) by (rewrite Z.land_ones by lia; exact Hb).
  rewrite <- Z.lxor_lor by exact D.
  rewrite <- Z.add_nocarry_lxor by exact D. rewrite Z.ones_equiv. lia.
Qed.

(** Rounding down to a multiple of a positive size. *)
Lemma floor_bounds size a :
  0 < size -> size * (a / size) <= a < size * (a / size) + size.
Proof.
  intros Hs. pose proof (Z.mul_div_le a size Hs).
  pose proof (Z.mul_succ_div_gt a size Hs). lia.
Qed.

Lemma floor_aligned size a : (size * (a / size)) mod size = 0.
Proof. rewrite Z.mul_comm. apply Z_mod_mult. Qed.

(** An aligned base below [2^32] leaves room for its whole block. *)
Lemma aligned_block_fits base p :
  0 <= p <= 32 -> 0 <= base <= ipaddress.ALL_ONES -> base mod block_size p = 0 ->
  base + block_size p - 1 <= ipaddress.ALL_ONES.
Proof.
  intros Hp Hb Hal.
  pose proof (block_size_pos p ltac:(lia)) as Hs.
  pose proof (block_size_divides_space p Hp) as Hd.
  apply Z.mod_divide in Hal; [| lia]. destruct Hal as [q Hq].
  assert (0 < 2 ^ p) by (apply Z.pow_pos_nonneg; lia).
  assert (q < 2 ^ p) by nia. nia.
Qed.

(** ** Networks *)

Lemma IPv4Address_Returns a b :
  ipaddress.IPv4Address a = Returns b -> b = a /\ 0 <= a <= ipaddress.ALL_ONES.
Proof.
  unfold ipaddress.IPv4Address.
  destruct (Z.ltb_spec a 0); [discriminate |].
  destruct (Z.gtb_spec a ipaddress.ALL_ONES); [discriminate |].
  intros [= <-]. lia.
Qed.

Lemma IPv4Address_in_range a :
  0 <= a <= ipaddress.ALL_ONES -> ipaddress.IPv4Address a = Returns a.
Proof.
  intros Ha. unfold ipaddress.IPv4Address.
  destruct (Z.ltb_spec a 0); [lia |].
  destruct (Z.gtb_spec a ipaddress.ALL_ONES); [lia | reflexivity].
Qed.

Lemma IPv4Address_not_OutOfFuel a : ipaddress.IPv4Address a <> OutOfFuel.
Proof.
  unfold ipaddress.IPv4Address.
  destruct (a <? 0); [discriminate |].
  destruct (a >? ipaddress.ALL_ONES); discriminate.
Qed.

Lemma ip_network_not_OutOfFuel text strict :
  ipaddress.ip_network text strict <> OutOfFuel.
Proof.
  unfold ipaddress.ip_network.
  repeat match goal with |- context [if ?c then _ else _] => destruct c end;
    discriminate.
Qed.

(** What [ip_network] returns is the block of the text's prefix length that
    holds the text's address. *)
Lemma ip_network_Returns text strict n :
  ipaddress.ip_network text strict = Returns n ->
  is_block n (block_size (cidr_prefix text)
              * (cidr_address text / block_size (cidr_prefix text)))
           (cidr_prefix text)
  /\ 0 <= cidr_address text <= ipaddress.ALL_ONES
  /\ (strict = true -> ipaddress.network_address n = cidr_address text).
Proof.
  unfold ipaddress.ip_network, ipaddress.max_prefixlen.
  destruct (Z.leb_spec 0 (cidr_address text)); cbn [andb negb]; [| discriminate].
  destruct (Z.leb_spec (cidr_address text) ipaddress.ALL_ONES);
    cbn [andb negb]; [| discriminate].
  destruct (Z.leb_spec 0 (cidr_prefix text)); cbn [andb negb]; [| discriminate].
  destruct (Z.leb_spec (cidr_prefix text) 32); cbn [andb negb]; [| discriminate].
  set (p := cidr_prefix text) in *. set (a := cidr_address text) in *.
  pose proof (block_size_pos p ltac:(lia)) as Hs.
  pose proof (floor_bounds (block_size p) a Hs) as Hf.
  pose proof (land_netmask a p ltac:(lia) ltac:(lia)) as Hland.
  assert (Hblock : forall n0,
             ipaddress.prefixlen n0 = p ->
             ipaddress.netmask n0 = ipaddress.ip_int_from_prefix p ->
             ipaddress.network_address n0 = block_size p * (a / block_size p) ->
             is_block n0 (block_size p * (a / block_size p)) p).
  { intros n0 Hn1 Hn2 Hn3.
    assert (0 <= a / block_size p) by (apply Z.div_pos; lia).
    constructor; try assumption; try lia.
    - apply floor_aligned.
    - apply aligned_block_fits; [lia | nia | apply floor_aligned]. }
  destruct (Z.eqb_spec (Z.land a (ipaddress.ip_int_from_prefix p)) a) as [E | E].
  - intros [= <-]. split; [| split; [lia | reflexivity]].
    apply Hblock; cbn [ipaddress.prefixlen ipaddress.netmask ipaddress.network_address]; [reflexivity | reflexivity | congruence].
  - destruct strict; [discriminate |]. intros [= <-].
    split; [| split; [lia | discriminate]].
    apply Hblock; cbn [ipaddress.prefixlen ipaddress.netmask ipaddress.network_address]; [reflexivity | reflexivity | exact Hland].
Qed.

(** The strict reading of an AddressBlock succeeds and keeps its base. *)
Lemma ip_network_AddressBlock b :
  AddressBlock b ->
  exists n, ipaddress.ip_network b true = Returns n
            /\ is_block n (cidr_address b) (cidr_prefix b).
Proof.
  intros (Hp & Ha & Hal).
  pose proof (block_size_pos (cidr_prefix b) ltac:(lia)) as Hs.
  assert (Hfloor : block_size (cidr_prefix b)
                   * (cidr_address b / block_size (cidr_prefix b)) = cidr_address b).
  { pose proof (Z.div_mod (cidr_address b) (block_size (cidr_prefix b)) ltac:(lia)).
    lia. }
  unfold ipaddress.ip_network, ipaddress.max_prefixlen.
  destruct (Z.leb_spec 0 (cidr_address b)); [| lia].
  destruct (Z.leb_spec (cidr_address b) ipaddress.ALL_ONES); [| lia].
  destruct (Z.leb_spec 0 (cidr_prefix b)); [| lia].
  destruct (Z.leb_spec (cidr_prefix b) 32); [| lia].
  cbn [andb negb].
  rewrite land_netmask, Hfloor, Z.eqb_refl by lia.
  eexists. split; [reflexivity |].
  constructor; cbn [ipaddress.prefixlen ipaddress.netmask ipaddress.network_address]; try reflexivity; try lia.
  apply aligned_block_fits; assumption.
Qed.

Section Block.
Variables (n : ipaddress.IPv4Network) (base p : Z).
Hypothesis Hn : is_block n base p.

Lemma is_block_size_pos : 0 < block_size p.
Proof. apply block_size_pos. destruct Hn. lia. Qed.

Lemma is_block_hostmask : ipaddress.hostmask n = block_size p - 1.
Proof.
  unfold ipaddress.hostmask. destruct Hn as [Hp _ Hm _ _ _ _].
  rewrite Hm. apply hostmask_eq. exact Hp.
Qed.

Lemma is_block_broadcast : ipaddress.broadcast_address n = base + block_size p - 1.
Proof.
  unfold ipaddress.broadcast_address. rewrite is_block_hostmask.
  destruct Hn as [Hp _ _ Hb _ Hal _]. rewrite Hb. unfold block_size in *.
  apply lor_aligned; [lia | exact Hal].
Qed.

Lemma is_block_num_addresses : ipaddress.num_addresses n = block_size p.
Proof.
  unfold ipaddress.num_addresses. rewrite is_block_broadcast.
  destruct Hn as [_ _ _ Hb _ _ _]. rewrite Hb. lia.
Qed.
End Block.

(** ** One pass of the loop *)

Lemma try_except_not_OutOfFuel {A : Type} (body : outcome A) handler :
  body <> OutOfFuel -> (forall e, handler e <> OutOfFuel) ->
  try_except body handler <> OutOfFuel.
Proof.
  intros Hb Hh. destruct body as [a | e |]; simpl;
    [discriminate | | elim Hb; reflexivity].
  destruct (is_ValueError e); [apply Hh | discriminate].
Qed.

Lemma py_mod_Returns a b i : py_mod a b = Returns i -> b <> 0 /\ i = a mod b.
Proof.
  unfold py_mod. destruct (Z.eqb_spec b 0); [discriminate |].
  intros [= <-]. split; [assumption | reflexivity].
Qed.

Lemma getitem_Returns {A : Type} (xs : list A) i x :
  getitem xs i = Returns x -> nth_error xs (Z.to_nat i) = Some x.
Proof.
  unfold getitem. destruct (nth_error xs (Z.to_nat i)); [| discriminate].
  intros [= <-]. reflexivity.
Qed.

Lemma loop_body_not_OutOfFuel self vpc_net new_prefix available_subnets current_ip :
  loop_body self vpc_net new_prefix available_subnets current_ip <> OutOfFuel.
Proof.
  unfold loop_body. apply try_except_not_OutOfFuel; [| discriminate].
  apply bind_not_OutOfFuel; [apply ip_network_not_OutOfFuel |].
  intros next_net. destruct (ipaddress.subnet_of next_net vpc_net); [| discriminate].
  apply bind_not_OutOfFuel; [apply IPv4Address_not_OutOfFuel | intros first].
  apply bind_not_OutOfFuel; [apply IPv4Address_not_OutOfFuel | intros last].
  apply bind_not_OutOfFuel.
  { unfold py_mod. destruct (_ =? 0); discriminate. }
  intros i. apply bind_not_OutOfFuel.
  { unfold getitem. destruct (nth_error _ _); discriminate. }
  intros az. cbv zeta.
  apply bind_not_OutOfFuel; [apply IPv4Address_not_OutOfFuel | discriminate].
Qed.

(** What an accepting pass does, read off the code. *)
Lemma loop_body_Returns self vpc_net new_prefix available_subnets current_ip
    available_subnets' current_ip' :
  loop_body self vpc_net new_prefix available_subnets current_ip
    = Returns (available_subnets', current_ip') ->
  exists next_net az,
    ipaddress.ip_network (mk_cidr current_ip new_prefix) false = Returns next_net /\
    ipaddress.subnet_of next_net vpc_net = true /\
    nth_error (available_azs self)
      (Z.to_nat (len available_subnets mod len (available_azs self))) = Some az /\
    available_subnets' = available_subnets ++ [subnet_info_of next_net az] /\
    current_ip' = ipaddress.broadcast_address next_net + 1.
Proof.
  intros H. unfold loop_body in H.
  apply try_except_Returns in H; [| discriminate].
  apply bind_Returns in H as (next_net & Hnet & H).
  destruct (ipaddress.subnet_of next_net vpc_net) eqn:Hsub; [| discriminate].
  apply bind_Returns in H as (first & Hfirst & H).
  apply bind_Returns in H as (last & Hlast & H).
  apply bind_Returns in H as (i & Hi & H).
  apply bind_Returns in H as (az & Haz & H).
  cbv zeta in H.
  apply bind_Returns in H as (next_ip & Hnext & H).
  injection H as <- <-.
  apply IPv4Address_Returns in Hfirst as [-> _].
  apply IPv4Address_Returns in Hlast as [-> _].
  apply IPv4Address_Returns in Hnext as [-> _].
  apply py_mod_Returns in Hi as [_ ->].
  apply getitem_Returns in Haz.
  exists next_net, az. repeat split; try assumption; reflexivity.
Qed.

(** The same in arithmetic: the candidate is the block of [new_prefix] that
    holds the scan pointer, it lies in the parent, and the pointer moves to
    the address after it. *)
Lemma loop_body_candidate self vpc_net new_prefix available_subnets current_ip
    available_subnets' current_ip' :
  loop_body self vpc_net new_prefix available_subnets current_ip
    = Returns (available_subnets', current_ip') ->
  exists s,
    available_subnets' = available_subnets ++ [s] /\
    0 <= new_prefix <= 32 /\
    0 <= current_ip <= ipaddress.ALL_ONES /\
    network_address s = block_size new_prefix * (current_ip / block_size new_prefix) /\
    network_address s = Z.land current_ip (ipaddress.ip_int_from_prefix new_prefix) /\
    cidr_block s = mk_cidr (network_address s) new_prefix /\
    broadcast_address s = network_address s + block_size new_prefix - 1 /\
    first_usable s = network_address s + 1 /\
    last_usable s = broadcast_address s - 1 /\
    usable_ips s = block_size new_prefix - 2 /\
    nth_error (available_azs self)
      (Z.to_nat (len available_subnets mod len (available_azs self)))
      = Some (suggested_az s) /\
    ipaddress.network_address vpc_net <= network_address s /\
    broadcast_address s <= ipaddress.broadcast_address vpc_net /\
    current_ip' = network_address s + block_size new_prefix.
Proof.
  intros H. apply loop_body_Returns in H
    as (next_net & az & Hnet & Hsub & Haz & -> & ->).
  apply ip_network_Returns in Hnet as (Hblock & Hcur & _).
  cbn [cidr_address cidr_prefix] in *.
  pose proof (is_block_broadcast _ _ _ Hblock) as Hbc.
  pose proof (is_block_num_addresses _ _ _ Hblock) as Hnum.
  pose proof (is_block_base _ _ _ Hblock) as Hbase.
  pose proof (is_block_prefix _ _ _ Hblock) as Hp.
  pose proof (is_block_prefixlen _ _ _ Hblock) as Hlen.
  unfold ipaddress.subnet_of in Hsub. apply andb_true_iff in Hsub as [Hlo Hhi].
  apply Z.leb_le in Hlo. apply Z.geb_le in Hhi.
  exists (subnet_info_of next_net az).
  unfold subnet_info_of, ipaddress.str;
    cbn [network_address broadcast_address cidr_block first_usable last_usable
         usable_ips suggested_az].
  rewrite Hbc, Hnum, Hlen, Hbase in *.
  rewrite land_netmask by assumption.
  repeat split; try assumption; try reflexivity; try lia.
Qed.

(** ** The loop *)

Section Loop.
Variables (self : IncrementalSubnetFinder) (vpc_net : ipaddress.IPv4Network)
          (new_prefix count : Z).

(** A property kept by every accepting pass holds of what the loop returns. *)
Lemma while_loop_invariant (P : list SubnetInfo -> Z -> Prop) :
  (forall avail cur avail' cur',
      P avail cur -> len avail < count ->
      loop_body self vpc_net new_prefix avail cur = Returns (avail', cur') ->
      P avail' cur') ->
  forall fuel avail cur r,
    P avail cur ->
    while_loop fuel self vpc_net new_prefix count avail cur = Returns r ->
    exists cur', P r cur' /\ count <= len r.
Proof.
  intros Hstep. induction fuel as [| fuel IH]; intros avail cur r HP H;
    cbn [while_loop] in H; [discriminate |].
  destruct (Z.ltb_spec (len avail) count) as [Hlt | Hge].
  - destruct (loop_body self vpc_net new_prefix avail cur)
      as [[avail' cur'] | e |] eqn:Hbody; try discriminate.
    apply (IH avail' cur'); [| exact H].
    apply (Hstep avail cur); assumption.
  - injection H as <-. exists cur. split; [exact HP | lia].
Qed.

Lemma len_app_one (avail : list SubnetInfo) s : len (avail ++ [s]) = len avail + 1.
Proof. unfold len. rewrite length_app. cbn [List.length]. lia. Qed.

(** The loop needs one pass per missing candidate, and one to leave. *)
Lemma while_loop_enough_fuel fuel avail cur :
  (Z.to_nat (count - len avail) < fuel)%nat ->
  while_loop fuel self vpc_net new_prefix count avail cur <> OutOfFuel.
Proof.
  revert avail cur. induction fuel as [| fuel IH]; intros avail cur Hfuel;
    [lia |]. cbn [while_loop].
  destruct (Z.ltb_spec (len avail) count) as [Hlt | Hge]; [| discriminate].
  destruct (loop_body self vpc_net new_prefix avail cur)
    as [[avail' cur'] | e |] eqn:Hbody.
  - apply IH. apply loop_body_candidate in Hbody as (s & -> & _).
    rewrite len_app_one. lia.
  - discriminate.
  - elim (loop_body_not_OutOfFuel _ _ _ _ _ Hbody).
Qed.

(** More fuel does not change an outcome that was reached. *)
Lemma while_loop_more_fuel fuel extra avail cur :
  while_loop fuel self vpc_net new_prefix count avail cur <> OutOfFuel ->
  while_loop (fuel + extra) self vpc_net new_prefix count avail cur
  = while_loop fuel self vpc_net new_prefix count avail cur.
Proof.
  revert avail cur. induction fuel as [| fuel IH]; intros avail cur H;
    [elim H; reflexivity |].
  cbn [while_loop Nat.add] in *.
  destruct (len avail <? count); [| reflexivity].
  destruct (loop_body self vpc_net new_prefix avail cur)
    as [[avail' cur'] | e |]; try reflexivity.
  apply IH. exact H.
Qed.
End Loop.

(** ** The call *)

Lemma start_ip_not_OutOfFuel self vpc_net : start_ip self vpc_net <> OutOfFuel.
Proof.
  unfold start_ip, _find_last_ip.
  apply bind_not_OutOfFuel.
  - destruct (existing_subnets self); [discriminate |].
    apply bind_not_OutOfFuel; [apply ip_network_not_OutOfFuel | discriminate].
  - intros [last_ip |]; [apply IPv4Address_not_OutOfFuel | discriminate].
Qed.

Lemma find_next_subnets_fuel_Returns fuel self new_prefix count r :
  find_next_subnets_fuel fuel self new_prefix count = Returns r ->
  exists vpc_net start,
    ipaddress.ip_network (vpc_cidr self) true = Returns vpc_net /\
    start_ip self vpc_net = Returns start /\
    while_loop fuel self vpc_net new_prefix count [] start = Returns r.
Proof.
  unfold find_next_subnets_fuel. intros H.
  apply bind_Returns in H as (vpc_net & Hvpc & H).
  apply bind_Returns in H as (start & Hstart & H).
  exists vpc_net, start. auto.
Qed.

Lemma find_next_subnets_fuel_enough fuel self new_prefix count :
  (Z.to_nat count < fuel)%nat ->
  find_next_subnets_fuel fuel self new_prefix count <> OutOfFuel.
Proof.
  intros Hfuel. unfold find_next_subnets_fuel.
  apply bind_not_OutOfFuel; [apply ip_network_not_OutOfFuel | intros vpc_net].
  apply bind_not_OutOfFuel; [apply start_ip_not_OutOfFuel | intros start].
  apply while_loop_enough_fuel. unfold len. cbn [List.length].
  rewrite Z.sub_0_r. exact Hfuel.
Qed.

Lemma find_next_subnets_fuel_more fuel extra self new_prefix count :
  find_next_subnets_fuel fuel self new_prefix count <> OutOfFuel ->
  find_next_subnets_fuel (fuel + extra) self new_prefix count
  = find_next_subnets_fuel fuel self new_prefix count.
Proof.
  unfold find_next_subnets_fuel. intros H.
  destruct (ipaddress.ip_network (vpc_cidr self) true) as [vpc_net | e |];
    cbn [bind] in *; try reflexivity.
  destruct (start_ip self vpc_net) as [start | e |]; cbn [bind] in *;
    try reflexivity.
  apply while_loop_more_fuel. exact H.
Qed.

(** The strict reading of the parent keeps its base: the parent is an
    AddressBlock and the network object spans its range. *)
Lemma parent_range text vpc_net :
  ipaddress.ip_network text true = Returns vpc_net ->
  AddressBlock text /\
  is_block vpc_net (cidr_address text) (cidr_prefix text) /\
  ipaddress.network_address vpc_net = block_first text /\
  ipaddress.broadcast_address vpc_net = block_last text.
Proof.
  intros H. apply ip_network_Returns in H as (Hblock & Ha & Hstrict).
  specialize (Hstrict eq_refl).
  pose proof (is_block_base _ _ _ Hblock) as Hbase. rewrite Hstrict in Hbase.
  rewrite <- Hbase in Hblock.
  pose proof (is_block_broadcast _ _ _ Hblock) as Hbc.
  destruct Hblock as [Hp Hlen Hmask Hb Hnn Hal Htop].
  repeat split; try assumption; try lia.
Qed.

(** ** Sorted lists *)

Lemma StronglySorted_snoc {A : Type} (R : A -> A -> Prop) l y :
  StronglySorted R l -> Forall (fun x => R x y) l -> StronglySorted R (l ++ [y]).
Proof.
  induction 1 as [| x l Hl IH Hx]; intros Hy; cbn [app].
  - constructor; constructor.
  - inversion Hy as [| ? ? Hxy Hly]; subst. constructor.
    + apply IH. exact Hly.
    + apply Forall_app. split; [exact Hx | constructor; [exact Hxy | constructor]].
Qed.

Lemma StronglySorted_snoc_inv {A : Type} (R : A -> A -> Prop) l y :
  StronglySorted R (l ++ [y]) -> Forall (fun x => R x y) l.
Proof.
  induction l as [| x l IH]; cbn [app]; intros H; [constructor |].
  inversion H as [| ? ? Hl Hx]; subst. constructor.
  - apply Forall_app in Hx as [_ Hy]. inversion Hy; assumption.
  - apply IH. exact Hl.
Qed.

Lemma StronglySorted_nth_error {A : Type} (R : A -> A -> Prop) l :
  StronglySorted R l ->
  forall i j x y, (i < j)%nat ->
    nth_error l i = Some x -> nth_error l j = Some y -> R x y.
Proof.
  induction 1 as [| a l Hl IH Ha]; intros i j x y Hij Hi Hj.
  - destruct i; discriminate.
  - destruct j as [| j]; [lia |]. cbn [nth_error] in Hj.
    destruct i as [| i]; cbn [nth_error] in Hi.
    + injection Hi as <-. rewrite Forall_forall in Ha. apply Ha.
      eapply nth_error_In; eassumption.
    + apply (IH i j); [lia | assumption | assumption].
Qed.

(** * The properties of the design document *)

(** C4. No partial success: a call either raises, and then hands no candidate
    to its caller, or returns a list of exactly [count] candidates (the empty
    list when [count] is below zero), never a shorter list that is not empty;
    it never runs out of passes. *)
Theorem find_next_subnets_all_or_nothing self new_prefix count :
  match find_next_subnets self new_prefix count with
  | Returns l => len l = Z.max 0 count /\ (l = [] \/ len l = count)
  | Raises _ => True
  | OutOfFuel => False
  end.
Proof.
  destruct (find_next_subnets self new_prefix count) as [l | e |] eqn:H;
    [| exact I |].
  - apply find_next_subnets_fuel_Returns in H as (vpc_net & start & _ & _ & H).
    apply (while_loop_invariant self vpc_net new_prefix count
             (fun avail _ => len avail <= Z.max 0 count)) in H.
    + destruct H as (_ & Hle & Hge).
      assert (Hlen : len l = Z.max 0 count) by (unfold len in *; lia).
      split; [exact Hlen |].
      destruct l as [| s l]; [left; reflexivity | right].
      unfold len in *. cbn [List.length] in *. lia.
    + intros avail cur avail' cur' HP Hlt Hbody.
      apply loop_body_candidate in Hbody as (s & -> & _).
      rewrite len_app_one. lia.
    + unfold len. cbn [List.length]. lia.
  - revert H. apply find_next_subnets_fuel_enough. lia.
Qed.

(** C10. Termination: a pass of the loop either raises or appends one
    candidate and moves the scan pointer strictly forward, so [count] passes
    and the test that leaves the loop are enough fuel for every call, and
    more fuel changes nothing. *)
Theorem find_next_subnets_terminates self new_prefix count :
  find_next_subnets self new_prefix count <> OutOfFuel /\
  (forall extra,
      find_next_subnets_fuel (S (Z.to_nat count) + extra) self new_prefix count
      = find_next_subnets self new_prefix count) /\
  (forall vpc_net available_subnets current_ip,
      match loop_body self vpc_net new_prefix available_subnets current_ip with
      | Returns (available_subnets', current_ip') =>
          len available_subnets' = len available_subnets + 1 /\
          current_ip < current_ip'
      | Raises _ => True
      | OutOfFuel => False
      end).
Proof.
  assert (Hfuel : find_next_subnets self new_prefix count <> OutOfFuel)
    by (apply find_next_subnets_fuel_enough; lia).
  split; [exact Hfuel |]. split.
  - intros extra. apply find_next_subnets_fuel_more. exact Hfuel.
  - intros vpc_net avail cur.
    destruct (loop_body self vpc_net new_prefix avail cur)
      as [[avail' cur'] | e |] eqn:Hbody; [| exact I |].
    + apply loop_body_candidate in Hbody
        as (s & -> & Hp & Hcur & Hbase & _ & _ & _ & _ & _ & _ & _ & _ & _ & ->).
      split; [apply len_app_one |].
      pose proof (floor_bounds (block_size new_prefix) cur
                    (block_size_pos new_prefix ltac:(lia))).
      lia.
    + exact (loop_body_not_OutOfFuel _ _ _ _ _ Hbody).
Qed.

(** C5. Containment: every candidate of a successful call lies in the parent
    block: its network and broadcast addresses are between the parent's first
    and last address, and so is the whole block its text names. *)
Theorem candidates_within_parent self new_prefix count l :
  find_next_subnets self new_prefix count = Returns l ->
  Forall (fun s =>
            block_first (vpc_cidr self) <= network_address s /\
            network_address s <= broadcast_address s /\
            broadcast_address s <= block_last (vpc_cidr self) /\
            block_within (cidr_block s) (vpc_cidr self) = true) l.
Proof.
  intros H.
  apply find_next_subnets_fuel_Returns in H as (vpc_net & start & Hvpc & _ & H).
  apply parent_range in Hvpc as (_ & _ & Hfirst & Hlast).
  apply (while_loop_invariant self vpc_net new_prefix count
           (fun avail _ =>
              Forall (fun s =>
                block_first (vpc_cidr self) <= network_address s /\
                network_address s <= broadcast_address s /\
                broadcast_address s <= block_last (vpc_cidr self) /\
                block_within (cidr_block s) (vpc_cidr self) = true) avail)) in H.
  - destruct H as (_ & H & _). exact H.
  - intros avail cur avail' cur' HP _ Hbody.
    apply loop_body_candidate in Hbody
      as (s & -> & Hp & _ & _ & _ & Hcidr & Hbc & _ & _ & _ & _ & Hlo & Hhi & _).
    apply Forall_app. split; [exact HP |]. constructor; [| constructor].
    pose proof (block_size_pos new_prefix ltac:(lia)).
    assert (Hfst : block_first (cidr_block s) = network_address s)
      by (rewrite Hcidr; reflexivity).
    assert (Hlst : block_last (cidr_block s) = broadcast_address s)
      by (rewrite Hcidr, Hbc; reflexivity).
    unfold block_within. rewrite Hfst, Hlst.
    repeat split; lia.
  - constructor.
Qed.

(** C7. Ordering: the candidates of a successful call are strictly increasing
    by base address. *)
Theorem candidates_strictly_increasing self new_prefix count l :
  find_next_subnets self new_prefix count = Returns l ->
  forall i j si sj, (i < j)%nat ->
    nth_error l i = Some si -> nth_error l j = Some sj ->
    network_address si < network_address sj.
Proof.
  intros H.
  apply find_next_subnets_fuel_Returns in H as (vpc_net & start & _ & _ & H).
  apply (while_loop_invariant self vpc_net new_prefix count
           (fun avail cur =>
              StronglySorted (fun a b => network_address a < network_address b) avail
              /\ Forall (fun s => network_address s
                                  < block_size new_prefix * (cur / block_size new_prefix))
                        avail)) in H.
  - destruct H as (_ & (Hsorted & _) & _).
    apply StronglySorted_nth_error. exact Hsorted.
  - intros avail cur avail' cur' [Hsorted Hbelow] _ Hbody.
    apply loop_body_candidate in Hbody
      as (s & -> & Hp & _ & Hbase & _ & _ & _ & _ & _ & _ & _ & _ & _ & ->).
    pose proof (block_size_pos new_prefix ltac:(lia)) as Hsize.
    assert (Hnext : block_size new_prefix
                    * ((network_address s + block_size new_prefix) / block_size new_prefix)
                    = network_address s + block_size new_prefix).
    { rewrite Hbase.
      replace (block_size new_prefix * (cur / block_size new_prefix) + block_size new_prefix)
        with ((cur / block_size new_prefix + 1) * block_size new_prefix) by lia.
      rewrite Z.div_mul by lia. lia. }
    rewrite Hnext. split.
    + apply StronglySorted_snoc; [exact Hsorted |].
      rewrite Hbase. exact Hbelow.
    + apply Forall_app. split.
      * eapply Forall_impl; [| exact Hbelow]. cbv beta. intros a Ha. lia.
      * constructor; [lia | constructor].
  - split; constructor.
Qed.

Lemma scan_pointer_app start avail rest i :
  (i <= List.length avail)%nat ->
  scan_pointer start (avail ++ rest) i = scan_pointer start avail i.
Proof.
  intros Hi. destruct i as [| k]; [reflexivity |]. cbn [scan_pointer].
  rewrite nth_error_app1 by lia. reflexivity.
Qed.

(** C8. Alignment: every candidate of a successful call is the scan pointer
    of its pass masked with the netmask of [new_prefix], which is the multiple
    of the block size [2^(32 - new_prefix)] at or just below the pointer. *)
Theorem candidates_aligned self new_prefix count l :
  find_next_subnets self new_prefix count = Returns l ->
  exists vpc_net start,
    ipaddress.ip_network (vpc_cidr self) true = Returns vpc_net /\
    start_ip self vpc_net = Returns start /\
    forall i s, nth_error l i = Some s ->
      cidr_block s = mk_cidr (network_address s) new_prefix /\
      network_address s mod block_size new_prefix = 0 /\
      network_address s
        = Z.land (scan_pointer start l i) (ipaddress.ip_int_from_prefix new_prefix) /\
      network_address s <= scan_pointer start l i
        < network_address s + block_size new_prefix.
Proof.
  intros H.
  apply find_next_subnets_fuel_Returns in H as (vpc_net & start & Hvpc & Hstart & H).
  exists vpc_net, start. split; [exact Hvpc |]. split; [exact Hstart |].
  apply (while_loop_invariant self vpc_net new_prefix count
           (fun avail cur =>
              cur = scan_pointer start avail (List.length avail) /\
              forall i s, nth_error avail i = Some s ->
                cidr_block s = mk_cidr (network_address s) new_prefix /\
                network_address s mod block_size new_prefix = 0 /\
                network_address s
                  = Z.land (scan_pointer start avail i)
                           (ipaddress.ip_int_from_prefix new_prefix) /\
                network_address s <= scan_pointer start avail i
                  < network_address s + block_size new_prefix)) in H.
  - destruct H as (_ & (_ & H) & _). exact H.
  - intros avail cur avail' cur' [Hcur Hall] _ Hbody.
    apply loop_body_candidate in Hbody
      as (s & -> & Hp & _ & Hbase & Hland & Hcidr & Hbc & _ & _ & _ & _ & _ & _ & ->).
    pose proof (block_size_pos new_prefix ltac:(lia)) as Hsize.
    split.
    + rewrite length_app. cbn [List.length]. rewrite Nat.add_1_r.
      cbn [scan_pointer]. rewrite nth_error_app2 by lia.
      rewrite Nat.sub_diag. cbn [nth_error]. lia.
    + intros i t Hi.
      assert (Hlt : (i < List.length (avail ++ [s]))%nat)
        by (apply nth_error_Some; congruence).
      rewrite length_app in Hlt. cbn [List.length] in Hlt.
      rewrite scan_pointer_app by lia.
      destruct (Nat.eq_dec i (List.length avail)) as [-> | Hne].
      * rewrite nth_error_app2, Nat.sub_diag in Hi by lia.
        injection Hi as <-. rewrite <- Hcur.
        pose proof (floor_bounds (block_size new_prefix) cur Hsize).
        repeat split; try assumption; try lia.
        rewrite Hbase. apply floor_aligned.
      * rewrite nth_error_app1 in Hi by lia. apply Hall. exact Hi.
  - split; [reflexivity |]. intros [| i] s Hi; discriminate.
Qed.

(** ** Where the scan starts *)

Lemma blocks_overlap_sym a b : blocks_overlap a b = blocks_overlap b a.
Proof. unfold blocks_overlap, intersects. apply andb_comm. Qed.

(** In a list of disjoint blocks sorted by base, the last block ends highest. *)
Lemma last_block_highest blocks last_block :
  Forall AddressBlock (blocks ++ [last_block]) ->
  sorted_by_base (blocks ++ [last_block]) ->
  pairwise_disjoint (blocks ++ [last_block]) ->
  highest_address (blocks ++ [last_block]) (block_last last_block).
Proof.
  intros Hvalid Hsorted Hdisjoint. split.
  - exists last_block. split; [| reflexivity].
    apply in_or_app. right. left. reflexivity.
  - apply Forall_app. split; [| constructor; [lia | constructor]].
    apply StronglySorted_snoc_inv in Hsorted.
    rewrite Forall_forall in *. intros x Hx.
    specialize (Hsorted x Hx). cbv beta in Hsorted.
    assert (Hlast : AddressBlock last_block)
      by (apply Hvalid, in_or_app; right; left; reflexivity).
    destruct Hlast as (Hp & _ & _).
    pose proof (block_size_pos (cidr_prefix last_block) ltac:(lia)) as Hsize.
    assert (Hcase : x = last_block \/ blocks_overlap x last_block = false).
    { destruct (ForallOrdPairs_In Hdisjoint x last_block) as [E | [E | E]].
      - apply in_or_app. left. exact Hx.
      - apply in_or_app. right. left. reflexivity.
      - left. exact E.
      - right. exact E.
      - right. rewrite blocks_overlap_sym. exact E. }
    destruct Hcase as [-> | Hno]; [lia |].
    unfold blocks_overlap, intersects, block_first, block_last in *. lia.
Qed.

(** C6. The scan starts at the parent's network address when nothing is
    allocated, and otherwise at the address after the last allocated block's
    broadcast address, which is the highest allocated address when the blocks
    are disjoint and sorted by base.  (Above 255.255.255.255 there is no
    address: the range check of [IPv4Address] raises.) *)
Theorem scan_start_address self vpc_net :
  ipaddress.ip_network (vpc_cidr self) true = Returns vpc_net ->
  Forall AddressBlock (existing_subnets self) ->
  sorted_by_base (existing_subnets self) ->
  pairwise_disjoint (existing_subnets self) ->
  (forall fuel new_prefix count,
      find_next_subnets_fuel fuel self new_prefix count
      = (start <- start_ip self vpc_net ;;
         while_loop fuel self vpc_net new_prefix count [] start)) /\
  match existing_subnets self with
  | [] => start_ip self vpc_net = Returns (block_first (vpc_cidr self))
  | first :: _ =>
      let last_block := last (existing_subnets self) first in
      highest_address (existing_subnets self) (block_last last_block) /\
      start_ip self vpc_net = ipaddress.IPv4Address (block_last last_block + 1) /\
      (block_last last_block < ipaddress.ALL_ONES ->
       start_ip self vpc_net = Returns (block_last last_block + 1))
  end.
Proof.
  intros Hvpc Hvalid Hsorted Hdisjoint. split.
  { intros fuel new_prefix count. unfold find_next_subnets_fuel.
    rewrite Hvpc. reflexivity. }
  unfold start_ip, _find_last_ip.
  destruct (existing_subnets self) as [| first rest] eqn:Hexisting.
  - cbn [bind]. apply parent_range in Hvpc as (_ & _ & -> & _). reflexivity.
  - cbv zeta.
    destruct (exists_last (l := first :: rest) ltac:(discriminate))
      as (blocks & last_block & Hsplit).
    rewrite Hsplit in *. rewrite last_last.
    assert (Hlast : AddressBlock last_block).
    { rewrite Forall_forall in Hvalid. apply Hvalid, in_or_app.
      right. left. reflexivity. }
    destruct (ip_network_AddressBlock last_block Hlast) as (n & Hn & Hblock).
    rewrite Hn. cbn [bind]. rewrite (is_block_broadcast _ _ _ Hblock).
    fold (block_last last_block).
    split; [apply last_block_highest; assumption |].
    split; [reflexivity |].
    intros Htop. unfold ipaddress.add. apply IPv4Address_in_range.
    destruct Hlast as (Hp & Ha & _).
    pose proof (block_size_pos (cidr_prefix last_block) ltac:(lia)).
    unfold block_last in *. lia.
Qed.

(** ** Requests outside the contract *)

Lemma start_ip_in_range self text vpc_net start :
  ipaddress.ip_network text true = Returns vpc_net ->
  start_ip self vpc_net = Returns start ->
  0 <= start <= ipaddress.ALL_ONES.
Proof.
  intros Hvpc H. unfold start_ip in H.
  apply bind_Returns in H as ([last_ip |] & _ & H).
  - apply IPv4Address_Returns in H as [-> H]. exact H.
  - injection H as <-. apply parent_range in Hvpc as ((_ & Ha & _) & _ & -> & _).
    exact Ha.
Qed.

Lemma ip_network_lenient a p :
  0 <= a <= ipaddress.ALL_ONES -> 0 <= p <= 32 ->
  exists n, ipaddress.ip_network (mk_cidr a p) false = Returns n.
Proof.
  intros Ha Hp. unfold ipaddress.ip_network, ipaddress.max_prefixlen.
  cbn [cidr_address cidr_prefix].
  destruct (Z.leb_spec 0 a); [| lia].
  destruct (Z.leb_spec a ipaddress.ALL_ONES); [| lia].
  destruct (Z.leb_spec 0 p); [| lia].
  destruct (Z.leb_spec p 32); [| lia].
  cbn [andb negb].
  destruct (Z.land a (ipaddress.ip_int_from_prefix p) =? a); eexists; reflexivity.
Qed.

(** A block of a shorter prefix than the parent's does not fit in the parent. *)
Lemma larger_block_not_subnet vpc_net base parent_prefix next_net next_base new_prefix :
  is_block vpc_net base parent_prefix ->
  is_block next_net next_base new_prefix ->
  new_prefix < parent_prefix ->
  ipaddress.subnet_of next_net vpc_net = false.
Proof.
  intros Hvpc Hnext Hlt.
  unfold ipaddress.subnet_of.
  rewrite (is_block_broadcast _ _ _ Hvpc), (is_block_broadcast _ _ _ Hnext).
  rewrite (is_block_base _ _ _ Hvpc), (is_block_base _ _ _ Hnext).
  pose proof (is_block_prefix _ _ _ Hvpc). pose proof (is_block_prefix _ _ _ Hnext).
  pose proof (block_size_double new_prefix parent_prefix ltac:(lia) Hlt ltac:(lia)).
  pose proof (block_size_pos parent_prefix ltac:(lia)).
  apply andb_false_iff.
  destruct (Z.leb_spec base next_base); [right | left; reflexivity].
  rewrite Z.geb_leb. apply Z.leb_gt. lia.
Qed.

(** With [count] at least one, the call is the first pass and whatever
    follows it. *)
Lemma find_next_subnets_first_pass self new_prefix count :
  1 <= count ->
  find_next_subnets self new_prefix count
  = (vpc_net <- ipaddress.ip_network (vpc_cidr self) true ;;
     start <- start_ip self vpc_net ;;
     match loop_body self vpc_net new_prefix [] start with
     | Returns (available_subnets, current_ip) =>
         while_loop (Z.to_nat count) self vpc_net new_prefix count
           available_subnets current_ip
     | Raises e => Raises e
     | OutOfFuel => OutOfFuel
     end).
Proof.
  intros Hcount. unfold find_next_subnets, find_next_subnets_fuel.
  destruct (ipaddress.ip_network (vpc_cidr self) true) as [vpc_net | e |];
    cbn [bind]; try reflexivity.
  destruct (start_ip self vpc_net) as [start | e |]; cbn [bind]; try reflexivity.
  cbn [while_loop]. unfold len at 1. cbn [List.length].
  destruct (Z.ltb_spec (Z.of_nat 0) count); [reflexivity | lia].
Qed.

(** The first pass of a request that breaks the contract accepts nothing. *)
Lemma loop_body_rejects self vpc_net new_prefix avail cur :
  ipaddress.ip_network (vpc_cidr self) true = Returns vpc_net ->
  new_prefix < 0 \/ 32 < new_prefix \/
  new_prefix < cidr_prefix (vpc_cidr self) \/ available_azs self = [] ->
  exists e, loop_body self vpc_net new_prefix avail cur = Raises e.
Proof.
  intros Hvpc Hbad.
  destruct (loop_body self vpc_net new_prefix avail cur)
    as [[avail' cur'] | e |] eqn:Hbody.
  - exfalso. apply loop_body_Returns in Hbody
      as (next_net & az & Hnet & Hsub & Haz & _ & _).
    apply ip_network_Returns in Hnet as (Hblock & _ & _).
    cbn [cidr_address cidr_prefix] in Hblock.
    pose proof (is_block_prefix _ _ _ Hblock) as Hp.
    apply parent_range in Hvpc as (_ & Hparent & _ & _).
    destruct Hbad as [Hbad | [Hbad | [Hbad | Hbad]]]; try lia.
    + rewrite (larger_block_not_subnet _ _ _ _ _ _ Hparent Hblock Hbad) in Hsub.
      discriminate.
    + rewrite Hbad in Haz. destruct (Z.to_nat _); discriminate.
  - exists e. reflexivity.
  - elim (loop_body_not_OutOfFuel _ _ _ _ _ Hbody).
Qed.

(** C2, as the code has it.  With [count] at least one, a target prefix outside
    [0, 32] or shorter than the parent's, or an empty label list, makes the
    call raise, so no candidate is produced; for a target prefix shorter than
    the parent's the error is the one that reports exhaustion, for one outside
    [0, 32] it is the [ValueError] of [ip_network], wrapped.  With [count]
    below one nothing is checked or raised beyond reading the inputs: the call
    returns the empty list. *)
Theorem contract_violations self new_prefix count :
  (count < 1 ->
   find_next_subnets self new_prefix count
   = (vpc_net <- ipaddress.ip_network (vpc_cidr self) true ;;
      _ <- start_ip self vpc_net ;;
      Returns [])) /\
  (1 <= count ->
   new_prefix < 0 \/ 32 < new_prefix \/
   new_prefix < cidr_prefix (vpc_cidr self) \/ available_azs self = [] ->
   exists e, find_next_subnets self new_prefix count = Raises e) /\
  (1 <= count -> 0 <= new_prefix -> new_prefix < cidr_prefix (vpc_cidr self) ->
   find_next_subnets self new_prefix count
   = (vpc_net <- ipaddress.ip_network (vpc_cidr self) true ;;
      _ <- start_ip self vpc_net ;;
      Raises (ValueError (msg_error_calculating
                            (msg_no_more_space (vpc_cidr self) new_prefix))))) /\
  (1 <= count -> new_prefix < 0 \/ 32 < new_prefix ->
   find_next_subnets self new_prefix count
   = (vpc_net <- ipaddress.ip_network (vpc_cidr self) true ;;
      start <- start_ip self vpc_net ;;
      Raises (ValueError (msg_error_calculating
                            (msg_not_a_network (mk_cidr start new_prefix)))))).
Proof.
  split; [| split; [| split]].
  - intros Hcount. unfold find_next_subnets, find_next_subnets_fuel.
    destruct (ipaddress.ip_network (vpc_cidr self) true) as [vpc_net | e |];
      cbn [bind]; try reflexivity.
    destruct (start_ip self vpc_net) as [start | e |]; cbn [bind]; try reflexivity.
    cbn [while_loop]. unfold len. cbn [List.length].
    destruct (Z.ltb_spec (Z.of_nat 0) count); [lia | reflexivity].
  - intros Hcount Hbad. rewrite find_next_subnets_first_pass by exact Hcount.
    destruct (ipaddress.ip_network (vpc_cidr self) true) as [vpc_net | e |] eqn:Hvpc;
      cbn [bind]; [| exists e; reflexivity |].
    + destruct (start_ip self vpc_net) as [start | e |] eqn:Hstart; cbn [bind];
        [| exists e; reflexivity | elim (start_ip_not_OutOfFuel _ _ Hstart)].
      destruct (loop_body_rejects self vpc_net new_prefix [] start Hvpc Hbad)
        as (e & ->).
      exists e. reflexivity.
    + elim (ip_network_not_OutOfFuel _ _ Hvpc).
  - intros Hcount Hp Hlt. rewrite find_next_subnets_first_pass by exact Hcount.
    destruct (ipaddress.ip_network (vpc_cidr self) true) as [vpc_net | e |] eqn:Hvpc;
      cbn [bind]; try reflexivity.
    destruct (start_ip self vpc_net) as [start | e |] eqn:Hstart; cbn [bind];
      try reflexivity.
    pose proof (start_ip_in_range _ _ _ _ Hvpc Hstart) as Hrange.
    apply parent_range in Hvpc as ((Hpp & _ & _) & Hparent & _ & _).
    destruct (ip_network_lenient start new_prefix Hrange ltac:(lia))
      as (next_net & Hnet).
    unfold loop_body. rewrite Hnet. cbn [bind].
    apply ip_network_Returns in Hnet as (Hblock & _ & _).
    cbn [cidr_address cidr_prefix] in Hblock.
    rewrite (larger_block_not_subnet _ _ _ _ _ _ Hparent Hblock Hlt).
    reflexivity.
  - intros Hcount Hp. rewrite find_next_subnets_first_pass by exact Hcount.
    destruct (ipaddress.ip_network (vpc_cidr self) true) as [vpc_net | e |] eqn:Hvpc;
      cbn [bind]; try reflexivity.
    destruct (start_ip self vpc_net) as [start | e |] eqn:Hstart; cbn [bind];
      try reflexivity.
    pose proof (start_ip_in_range _ _ _ _ Hvpc Hstart) as Hrange.
    unfold loop_body, ipaddress.ip_network, ipaddress.max_prefixlen.
    cbn [cidr_address cidr_prefix].
    destruct (Z.leb_spec 0 start); [| lia].
    destruct (Z.leb_spec start ipaddress.ALL_ONES); [| lia].
    cbn [andb negb].
    destruct (Z.leb_spec 0 new_prefix); destruct (Z.leb_spec new_prefix 32);
      cbn [andb negb]; try lia; reflexivity.
Qed.

(** C3, as the code has it.  The annotations of every candidate are the
    generic ones whatever the prefix length: [usable_ips] is the block size
    less two (0 for a /31, -1 for a /32), [first_usable] is the network
    address plus one and [last_usable] the broadcast address less one (for a
    /32: the addresses next to the single address). *)
Theorem candidates_generic_annotations self new_prefix count l :
  find_next_subnets self new_prefix count = Returns l ->
  Forall (fun s =>
            generic_annotations new_prefix s /\
            (new_prefix = 31 -> usable_ips s = 0) /\
            (new_prefix = 32 ->
             usable_ips s = -1 /\
             broadcast_address s = network_address s /\
             first_usable s = network_address s + 1 /\
             last_usable s = network_address s - 1)) l.
Proof.
  intros H.
  apply find_next_subnets_fuel_Returns in H as (vpc_net & start & _ & _ & H).
  apply (while_loop_invariant self vpc_net new_prefix count
           (fun avail _ =>
              Forall (fun s =>
                generic_annotations new_prefix s /\
                (new_prefix = 31 -> usable_ips s = 0) /\
                (new_prefix = 32 ->
                 usable_ips s = -1 /\
                 broadcast_address s = network_address s /\
                 first_usable s = network_address s + 1 /\
                 last_usable s = network_address s - 1)) avail)) in H.
  - destruct H as (_ & H & _). exact H.
  - intros avail cur avail' cur' HP _ Hbody.
    apply loop_body_candidate in Hbody
      as (s & -> & _ & _ & _ & _ & _ & Hbc & Hfirst & Hlast & Husable & _).
    apply Forall_app. split; [exact HP |]. constructor; [| constructor].
    unfold generic_annotations. split; [auto |]. split.
    + intros ->. rewrite Husable. reflexivity.
    + intros ->. change (block_size 32) with 1 in *. lia.
  - constructor.
Qed.

(** ** The calls of the examples *)

(** C9. Parent 10.0.0.0/16, nothing allocated, three /24 blocks, labels a, b,
    c: the call returns 10.0.0.0/24, 10.0.1.0/24 and 10.0.2.0/24 in this
    order, labelled a, b and c, the label of candidate [i] being the one at
    index [i mod 3] of the label list. *)
Theorem scenario_three_blocks :
  find_next_subnets finder_empty_16 24 3 = Returns three_blocks /\
  map (fun s => str_cidr (cidr_block s)) three_blocks
    = ["10.0.0.0/24"; "10.0.1.0/24"; "10.0.2.0/24"]%string /\
  map suggested_az three_blocks = ["a"; "b"; "c"]%string /\
  map suggested_az three_blocks
    = map (fun i => nth (i mod 3) (available_azs finder_empty_16) ""%string)
          (seq 0 3).
Proof.
  split; [vm_compute; reflexivity |].
  split; [vm_compute; reflexivity |]. split; reflexivity.
Qed.

(** C1 fails on the code.  Parent 10.0.0.0/16 with 10.0.0.0/25 allocated, one
    /24 block asked for: the scan starts at 10.0.0.128, the address after the
    allocation, the mask of a /24 brings it back to 10.0.0.0, and the call
    returns 10.0.0.0/24, which contains the allocated block. *)
Theorem candidate_covers_allocation :
  let allocated := mk_cidr (dotted 10 0 0 0) 25 in
  let returned := candidate (dotted 10 0 0 0) 24 "a" in
  existing_subnets finder_after_25 = [allocated] /\
  AddressBlock allocated /\
  block_within allocated (vpc_cidr finder_after_25) = true /\
  (forall vpc_net, start_ip finder_after_25 vpc_net = Returns (dotted 10 0 0 128)) /\
  find_next_subnets finder_after_25 24 1 = Returns [returned] /\
  render returned
  = {| cidr_block_str := "10.0.0.0/24";
       network_address_str := "10.0.0.0";
       broadcast_address_str := "10.0.0.255";
       first_usable_str := "10.0.0.1";
       last_usable_str := "10.0.0.254";
       usable_ips_int := 254;
       suggested_az_str := "a" |} /\
  str_cidr allocated = "10.0.0.0/25"%string /\
  candidate_overlaps returned allocated = true /\
  block_within allocated (cidr_block returned) = true.
Proof.
  cbv zeta. split; [reflexivity |].
  split; [repeat split; vm_compute; congruence |].
  split; [vm_compute; reflexivity |].
  split; [intros vpc_net; vm_compute; reflexivity |].
  split; [vm_compute; reflexivity |].
  split; [vm_compute; reflexivity |].
  split; [vm_compute; reflexivity |].
  split; vm_compute; reflexivity.
Qed.

(** C3 fails on the code.  One /32 block in parent 10.0.0.0/24: the call
    returns 10.0.0.0/32 with [usable_ips] -1, [first_usable] 10.0.0.1 and
    [last_usable] 9.255.255.255; one /31 block has [usable_ips] 0. *)
Lemma degenerate_annotations_counterexample :
  find_next_subnets finder_empty_24 32 1 = Returns [candidate (dotted 10 0 0 0) 32 "a"] /\
  render (candidate (dotted 10 0 0 0) 32 "a")
  = {| cidr_block_str := "10.0.0.0/32";
       network_address_str := "10.0.0.0";
       broadcast_address_str := "10.0.0.0";
       first_usable_str := "10.0.0.1";
       last_usable_str := "9.255.255.255";
       usable_ips_int := -1;
       suggested_az_str := "a" |} /\
  ~ degenerate_annotations 32 (candidate (dotted 10 0 0 0) 32 "a") /\
  find_next_subnets finder_empty_24 31 1 = Returns [candidate (dotted 10 0 0 0) 31 "a"] /\
  ~ degenerate_annotations 31 (candidate (dotted 10 0 0 0) 31 "a").
Proof.
  split; [vm_compute; reflexivity |]. split; [vm_compute; reflexivity |].
  split; [| split; [vm_compute; reflexivity |]].
  - intros [H _]. specialize (H ltac:(lia)). vm_compute in H. discriminate.
  - intros [H _]. specialize (H ltac:(lia)). vm_compute in H. discriminate.
Qed.

(** C2 fails on the code.  With [count] 0 the call returns the empty list and
    raises nothing; with a target prefix of 8 in a /16 parent it raises the
    error that reports exhaustion. *)
Lemma invalid_request_counterexample :
  precondition_violated finder_empty_16 24 0 /\
  find_next_subnets finder_empty_16 24 0 = Returns [] /\
  ~ reports_invalid_request (find_next_subnets finder_empty_16 24 0) /\
  precondition_violated finder_empty_16 8 1 /\
  find_next_subnets finder_empty_16 8 1
  = Raises (ValueError (msg_error_calculating
                          (msg_no_more_space (vpc_cidr finder_empty_16) 8))) /\
  ~ reports_invalid_request (find_next_subnets finder_empty_16 8 1).
Proof.
  assert (H0 : find_next_subnets finder_empty_16 24 0 = Returns [])
    by (vm_compute; reflexivity).
  assert (H8 : find_next_subnets finder_empty_16 8 1
               = Raises (ValueError (msg_error_calculating
                                       (msg_no_more_space (vpc_cidr finder_empty_16) 8))))
    by (vm_compute; reflexivity).
  split; [unfold precondition_violated; lia |].
  split; [exact H0 |]. split.
  { rewrite H0. intros (e & He & _). discriminate. }
  split; [unfold precondition_violated; cbn; lia |].
  split; [exact H8 |].
  rewrite H8. intros (e & He & Hkind). injection He as <-. discriminate.
Qed.

(** ** Allocations of mixed prefix lengths *)

Lemma start_ip_after_last self vpc_net blocks last_block :
  existing_subnets self = blocks ++ [last_block] ->
  AddressBlock last_block ->
  start_ip self vpc_net = ipaddress.IPv4Address (block_last last_block + 1).
Proof.
  intros Hexisting Hlast. unfold start_ip, _find_last_ip.
  destruct (existing_subnets self) as [| first rest] eqn:E.
  - destruct blocks; discriminate.
  - rewrite Hexisting, last_last.
    destruct (ip_network_AddressBlock last_block Hlast) as (n & -> & Hblock).
    cbn [bind]. rewrite (is_block_broadcast _ _ _ Hblock). reflexivity.
Qed.

(** When the last allocated block is at least as large as the blocks asked
    for, the scan start is already on a boundary of the new size, nothing is
    masked away, and every candidate lies above every allocated block. *)
Lemma candidates_above_allocations self new_prefix count l blocks last_block :
  find_next_subnets self new_prefix count = Returns l ->
  existing_subnets self = blocks ++ [last_block] ->
  Forall AddressBlock (existing_subnets self) ->
  sorted_by_base (existing_subnets self) ->
  pairwise_disjoint (existing_subnets self) ->
  cidr_prefix last_block <= new_prefix ->
  Forall (fun s =>
            Forall (fun b => candidate_overlaps s b = false) (existing_subnets self))
         l.
Proof.
  intros H Hexisting Hvalid Hsorted Hdisjoint Hprefix.
  apply find_next_subnets_fuel_Returns in H as (vpc_net & start & _ & Hstart & H).
  rewrite Hexisting in *.
  assert (Hlast : AddressBlock last_block).
  { rewrite Forall_forall in Hvalid. apply Hvalid, in_or_app.
    right. left. reflexivity. }
  rewrite (start_ip_after_last self vpc_net blocks last_block Hexisting Hlast)
    in Hstart.
  apply IPv4Address_Returns in Hstart as [-> _].
  destruct (last_block_highest blocks last_block Hvalid Hsorted Hdisjoint)
    as [_ Hhighest].
  destruct Hlast as (Hlp & Hla & Hlal).
  set (start := block_last last_block + 1) in *.
  apply (while_loop_invariant self vpc_net new_prefix count
           (fun avail cur =>
              start <= cur /\ Forall (fun s => start <= network_address s) avail))
    in H.
  - destruct H as (_ & (_ & H) & _).
    eapply Forall_impl; [| exact H]. cbv beta. intros s Hs.
    eapply Forall_impl; [| exact Hhighest]. cbv beta. intros b Hb.
    unfold candidate_overlaps, intersects. subst start. lia.
  - intros avail cur avail' cur' [Hcur Hall] _ Hbody.
    apply loop_body_candidate in Hbody
      as (s & -> & Hp & _ & Hbase & _ & _ & _ & _ & _ & _ & _ & _ & _ & ->).
    pose proof (block_size_pos new_prefix ltac:(lia)) as Hsize.
    assert (Hfloor : start <= network_address s).
    { rewrite Hbase.
      pose proof (block_size_multiple (cidr_prefix last_block) new_prefix
                    ltac:(lia) Hprefix ltac:(lia)) as Hmul.
      apply Z.mod_divide in Hlal;
        [| pose proof (block_size_pos (cidr_prefix last_block) ltac:(lia)); lia].
      destruct Hlal as [q Hq].
      assert (Hstart : start
                       = block_size new_prefix
                         * ((q + 1) * 2 ^ (new_prefix - cidr_prefix last_block))).
      { subst start. unfold block_last. rewrite Hq, Hmul. ring. }
      rewrite Hstart in *.
      apply Z.mul_le_mono_nonneg_l; [lia |].
      apply Z.div_le_lower_bound; [lia | exact Hcur]. }
    split; [lia |].
    apply Forall_app. split; [exact Hall | constructor; [exact Hfloor | constructor]].
  - split; [lia | constructor].
Qed.

(** ** Labels *)

(** Candidate [i] of a successful call carries the label at index
    [i mod len(available_azs)]. *)
Lemma labels_round_robin self new_prefix count l :
  find_next_subnets self new_prefix count = Returns l ->
  forall i s, nth_error l i = Some s ->
    nth_error (available_azs self)
      (Z.to_nat (Z.of_nat i mod len (available_azs self)))
    = Some (suggested_az s).
Proof.
  intros H.
  apply find_next_subnets_fuel_Returns in H as (vpc_net & start & _ & _ & H).
  apply (while_loop_invariant self vpc_net new_prefix count
           (fun avail _ =>
              forall i s, nth_error avail i = Some s ->
                nth_error (available_azs self)
                  (Z.to_nat (Z.of_nat i mod len (available_azs self)))
                = Some (suggested_az s))) in H.
  - destruct H as (_ & H & _). exact H.
  - intros avail cur avail' cur' Hall _ Hbody.
    apply loop_body_candidate in Hbody
      as (s & -> & _ & _ & _ & _ & _ & _ & _ & _ & _ & Haz & _).
    intros i t Hi.
    assert (Hlt : (i < List.length (avail ++ [s]))%nat)
      by (apply nth_error_Some; congruence).
    rewrite length_app in Hlt. cbn [List.length] in Hlt.
    destruct (Nat.eq_dec i (List.length avail)) as [-> | Hne].
    + rewrite nth_error_app2, Nat.sub_diag in Hi by lia.
      injection Hi as <-. exact Haz.
    + rewrite nth_error_app1 in Hi by lia. apply Hall. exact Hi.
  - intros [| i] s Hi; discriminate.
Qed.

(** ** Instances *)

Lemma candidates_within_parent_witness :
  find_next_subnets finder_empty_16 24 3 = Returns three_blocks /\
  Forall (fun s =>
            block_first (vpc_cidr finder_empty_16) <= network_address s /\
            network_address s <= broadcast_address s /\
            broadcast_address s <= block_last (vpc_cidr finder_empty_16) /\
            block_within (cidr_block s) (vpc_cidr finder_empty_16) = true)
         three_blocks.
Proof.
  split; [vm_compute; reflexivity |].
  apply (candidates_within_parent finder_empty_16 24 3 three_blocks).
  vm_compute; reflexivity.
Defined.

Lemma candidates_strictly_increasing_witness :
  find_next_subnets finder_empty_16 24 3 = Returns three_blocks /\
  network_address (candidate (dotted 10 0 0 0) 24 "a")
  < network_address (candidate (dotted 10 0 2 0) 24 "c").
Proof.
  split; [vm_compute; reflexivity |].
  apply (candidates_strictly_increasing finder_empty_16 24 3 three_blocks
           ltac:(vm_compute; reflexivity) 0%nat 2%nat);
    [lia | reflexivity | reflexivity].
Defined.

Lemma candidates_aligned_witness :
  find_next_subnets finder_after_25 24 1
  = Returns [candidate (dotted 10 0 0 0) 24 "a"] /\
  exists vpc_net start,
    ipaddress.ip_network (vpc_cidr finder_after_25) true = Returns vpc_net /\
    start_ip finder_after_25 vpc_net = Returns start /\
    forall i s, nth_error [candidate (dotted 10 0 0 0) 24 "a"] i = Some s ->
      cidr_block s = mk_cidr (network_address s) 24 /\
      network_address s mod block_size 24 = 0 /\
      network_address s
        = Z.land (scan_pointer start [candidate (dotted 10 0 0 0) 24 "a"] i)
                 (ipaddress.ip_int_from_prefix 24) /\
      network_address s <= scan_pointer start [candidate (dotted 10 0 0 0) 24 "a"] i
        < network_address s + block_size 24.
Proof.
  split; [vm_compute; reflexivity |].
  apply (candidates_aligned finder_after_25 24 1).
  vm_compute; reflexivity.
Defined.

Lemma candidates_generic_annotations_witness :
  find_next_subnets finder_empty_24 32 1
  = Returns [candidate (dotted 10 0 0 0) 32 "a"] /\
  Forall (fun s =>
            generic_annotations 32 s /\
            (32 = 31 -> usable_ips s = 0) /\
            (32 = 32 ->
             usable_ips s = -1 /\
             broadcast_address s = network_address s /\
             first_usable s = network_address s + 1 /\
             last_usable s = network_address s - 1))
         [candidate (dotted 10 0 0 0) 32 "a"].
Proof.
  split; [vm_compute; reflexivity |].
  apply (candidates_generic_annotations finder_empty_24 32 1).
  vm_compute; reflexivity.
Defined.

Lemma scan_start_address_witness :
  let self := finder_after_two_26 in
  let vpc_net :=
    ipaddress.mk_network (dotted 10 0 0 0) (ipaddress.ip_int_from_prefix 24) 24 in
  ipaddress.ip_network (vpc_cidr self) true = Returns vpc_net /\
  Forall AddressBlock (existing_subnets self) /\
  sorted_by_base (existing_subnets self) /\
  pairwise_disjoint (existing_subnets self) /\
  highest_address (existing_subnets self) (dotted 10 0 0 127) /\
  start_ip self vpc_net = Returns (dotted 10 0 0 128).
Proof.
  cbv zeta.
  assert (Hvpc : ipaddress.ip_network (vpc_cidr finder_after_two_26) true
                 = Returns (ipaddress.mk_network (dotted 10 0 0 0)
                              (ipaddress.ip_int_from_prefix 24) 24))
    by (vm_compute; reflexivity).
  assert (Hvalid : Forall AddressBlock (existing_subnets finder_after_two_26))
    by (repeat constructor; vm_compute; congruence).
  assert (Hsorted : sorted_by_base (existing_subnets finder_after_two_26))
    by (repeat constructor; vm_compute; congruence).
  assert (Hdisjoint : pairwise_disjoint (existing_subnets finder_after_two_26))
    by (repeat constructor).
  destruct (scan_start_address finder_after_two_26 _ Hvpc Hvalid Hsorted Hdisjoint)
    as [_ H].
  cbn [existing_subnets finder_after_two_26 last] in H.
  destruct H as (Hhigh & _ & Hstart).
  split; [exact Hvpc |]. split; [exact Hvalid |].
  split; [exact Hsorted |]. split; [exact Hdisjoint |].
  split; [exact Hhigh |].
  apply Hstart. vm_compute. reflexivity.
Defined.

Lemma contract_violations_witness :
  find_next_subnets finder_empty_16 24 0
  = (vpc_net <- ipaddress.ip_network (vpc_cidr finder_empty_16) true ;;
     _ <- start_ip finder_empty_16 vpc_net ;;
     Returns []) /\
  (exists e, find_next_subnets finder_empty_16 33 1 = Raises e) /\
  find_next_subnets finder_empty_16 8 1
  = (vpc_net <- ipaddress.ip_network (vpc_cidr finder_empty_16) true ;;
     _ <- start_ip finder_empty_16 vpc_net ;;
     Raises (ValueError (msg_error_calculating
                           (msg_no_more_space (vpc_cidr finder_empty_16) 8)))) /\
  find_next_subnets finder_empty_16 33 1
  = (vpc_net <- ipaddress.ip_network (vpc_cidr finder_empty_16) true ;;
     start <- start_ip finder_empty_16 vpc_net ;;
     Raises (ValueError (msg_error_calculating
                           (msg_not_a_network (mk_cidr start 33))))).
Proof.
  split; [| split; [| split]].
  - apply (proj1 (contract_violations finder_empty_16 24 0)). lia.
  - apply (proj1 (proj2 (contract_violations finder_empty_16 33 1))); lia.
  - apply (proj1 (proj2 (proj2 (contract_violations finder_empty_16 8 1))));
      [lia | lia | vm_compute; reflexivity].
  - apply (proj2 (proj2 (proj2 (contract_violations finder_empty_16 33 1)))); lia.
Defined.

Lemma find_next_subnets_terminates_witness :
  find_next_subnets finder_empty_16 24 3 <> OutOfFuel.
Proof. exact (proj1 (find_next_subnets_terminates finder_empty_16 24 3)). Defined.

(** * The rest of the module: facts *)

(** ** One pass, exactly *)

Lemma label_at_nth_error azs i az :
  nth_error azs (Z.to_nat (Z.of_nat i mod len azs)) = Some az -> label_at azs i = az.
Proof. intros H. unfold label_at. apply nth_error_nth. exact H. Qed.

(** The record of an accepting pass is [candidate]. *)
Lemma loop_body_candidate_eq self vpc_net new_prefix available_subnets current_ip
    available_subnets' current_ip' :
  loop_body self vpc_net new_prefix available_subnets current_ip
    = Returns (available_subnets', current_ip') ->
  available_subnets'
  = available_subnets
    ++ [candidate (floor_to_block new_prefix current_ip) new_prefix
          (label_at (available_azs self) (List.length available_subnets))] /\
  current_ip' = floor_to_block new_prefix current_ip + block_size new_prefix.
Proof.
  intros H. apply loop_body_candidate in H
    as (s & -> & _ & _ & Hbase & _ & Hcidr & Hbc & Hfirst & Hlast & Husable & Haz
        & _ & _ & ->).
  apply label_at_nth_error in Haz. unfold floor_to_block. rewrite <- Hbase.
  split; [| reflexivity]. f_equal. f_equal.
  destruct s as [c n b f l u a]. cbn in *. unfold candidate. subst. reflexivity.
Qed.

(** What an accepting pass needed. *)
Lemma loop_body_Returns_room self vpc_net new_prefix available_subnets current_ip r :
  loop_body self vpc_net new_prefix available_subnets current_ip = Returns r ->
  0 <= new_prefix <= 32 /\
  0 <= current_ip <= ipaddress.ALL_ONES /\
  available_azs self <> [] /\
  ipaddress.network_address vpc_net <= floor_to_block new_prefix current_ip /\
  floor_to_block new_prefix current_ip + block_size new_prefix - 1
    <= ipaddress.broadcast_address vpc_net /\
  floor_to_block new_prefix current_ip + block_size new_prefix - 1
    < ipaddress.ALL_ONES /\
  2 <= floor_to_block new_prefix current_ip + block_size new_prefix.
Proof.
  intros H. unfold loop_body in H.
  apply try_except_Returns in H; [| discriminate].
  apply bind_Returns in H as (next_net & Hnet & H).
  destruct (ipaddress.subnet_of next_net vpc_net) eqn:Hsub; [| discriminate].
  apply bind_Returns in H as (first & _ & H).
  apply bind_Returns in H as (last & Hlast & H).
  apply bind_Returns in H as (i & Hi & H).
  apply bind_Returns in H as (az & Haz & H).
  cbv zeta in H.
  apply bind_Returns in H as (next_ip & Hnext & _).
  apply IPv4Address_Returns in Hlast as [_ Hlast].
  apply IPv4Address_Returns in Hnext as [_ Hnext].
  apply py_mod_Returns in Hi as [Hlen _].
  apply ip_network_Returns in Hnet as (Hblock & Hcur & _).
  cbn [cidr_address cidr_prefix] in *.
  rewrite (is_block_broadcast _ _ _ Hblock) in *.
  unfold ipaddress.subnet_of in Hsub. apply andb_true_iff in Hsub as [Hlo Hhi].
  apply Z.leb_le in Hlo. apply Z.geb_le in Hhi.
  rewrite (is_block_broadcast _ _ _ Hblock) in Hhi.
  rewrite (is_block_base _ _ _ Hblock) in Hlo.
  pose proof (is_block_prefix _ _ _ Hblock).
  unfold floor_to_block.
  repeat split; try lia.
  intros Hazs. apply Hlen. rewrite Hazs. reflexivity.
Qed.

(** A pass whose block has room is an accepting pass. *)
Lemma loop_body_accepts self vpc_net parent_base parent_prefix new_prefix
    available_subnets current_ip :
  is_block vpc_net parent_base parent_prefix ->
  0 <= new_prefix <= 32 ->
  0 <= current_ip <= ipaddress.ALL_ONES ->
  available_azs self <> [] ->
  parent_base <= floor_to_block new_prefix current_ip ->
  floor_to_block new_prefix current_ip + block_size new_prefix - 1
    <= parent_base + block_size parent_prefix - 1 ->
  floor_to_block new_prefix current_ip + block_size new_prefix - 1
    < ipaddress.ALL_ONES ->
  2 <= floor_to_block new_prefix current_ip + block_size new_prefix ->
  loop_body self vpc_net new_prefix available_subnets current_ip
  = Returns (available_subnets
             ++ [candidate (floor_to_block new_prefix current_ip) new_prefix
                   (label_at (available_azs self) (List.length available_subnets))],
             floor_to_block new_prefix current_ip + block_size new_prefix).
Proof.
  intros Hvpc Hp Hcur Hazs Hlo Hhi Htop Hbottom.
  destruct (ip_network_lenient current_ip new_prefix Hcur Hp) as (next_net & Hnet).
  pose proof Hnet as Hblock.
  apply ip_network_Returns in Hblock as (Hblock & _ & _).
  cbn [cidr_address cidr_prefix] in Hblock. fold (floor_to_block new_prefix current_ip) in Hblock.
  set (b := floor_to_block new_prefix current_ip) in *.
  pose proof (block_size_pos new_prefix ltac:(lia)) as Hsize.
  pose proof (is_block_nonneg _ _ _ Hblock) as Hb0.
  assert (Hlen : len (available_azs self) <> 0).
  { unfold len. destruct (available_azs self); [congruence | cbn [List.length]; lia]. }
  assert (Hidx : (Z.to_nat (len available_subnets mod len (available_azs self))
                  < List.length (available_azs self))%nat).
  { pose proof (Z.mod_pos_bound (len available_subnets) (len (available_azs self))).
    unfold len in *. lia. }
  destruct (loop_body self vpc_net new_prefix available_subnets current_ip)
    as [[avail' cur'] | e |] eqn:Hbody.
  - apply loop_body_candidate_eq in Hbody as [-> ->]. reflexivity.
  - exfalso. unfold loop_body in Hbody. rewrite Hnet in Hbody. cbn [bind] in Hbody.
    assert (Hsub : ipaddress.subnet_of next_net vpc_net = true).
    { unfold ipaddress.subnet_of.
      rewrite (is_block_broadcast _ _ _ Hvpc), (is_block_broadcast _ _ _ Hblock).
      rewrite (is_block_base _ _ _ Hvpc), (is_block_base _ _ _ Hblock). lia. }
    rewrite Hsub in Hbody.
    rewrite (is_block_broadcast _ _ _ Hblock), (is_block_base _ _ _ Hblock) in Hbody.
    unfold ipaddress.add, ipaddress.sub in Hbody.
    rewrite !IPv4Address_in_range in Hbody by lia. cbn [bind] in Hbody.
    unfold py_mod in Hbody.
    destruct (Z.eqb_spec (len (available_azs self)) 0); [contradiction |].
    cbn [bind] in Hbody. unfold getitem in Hbody.
    destruct (nth_error (available_azs self)
                (Z.to_nat (len available_subnets mod len (available_azs self))))
      eqn:Hnth; [| apply nth_error_None in Hnth; lia].
    cbn [bind try_except] in Hbody. discriminate.
  - elim (loop_body_not_OutOfFuel _ _ _ _ _ Hbody).
Qed.

(** ** The loop, exactly *)

Lemma floor_to_block_bounds p a :
  p <= 32 -> floor_to_block p a <= a < floor_to_block p a + block_size p.
Proof. intros Hp. apply floor_bounds, block_size_pos, Hp. Qed.

(** A multiple of the block size is its own floor. *)
Lemma floor_to_block_multiple p k :
  p <= 32 -> floor_to_block p (k * block_size p) = k * block_size p.
Proof.
  intros Hp. pose proof (block_size_pos p Hp). unfold floor_to_block.
  rewrite Z.div_mul by lia. lia.
Qed.

Lemma floor_to_block_next p a :
  p <= 32 ->
  floor_to_block p (floor_to_block p a + block_size p)
  = floor_to_block p a + block_size p.
Proof.
  intros Hp.
  replace (floor_to_block p a + block_size p)
    with ((a / block_size p + 1) * block_size p)
    by (unfold floor_to_block; lia).
  apply floor_to_block_multiple. exact Hp.
Qed.

Lemma find_next_subnets_length self new_prefix count l :
  find_next_subnets self new_prefix count = Returns l ->
  List.length l = Z.to_nat count.
Proof.
  intros H.
  apply find_next_subnets_fuel_Returns in H as (vpc_net & start & _ & _ & H).
  apply (while_loop_invariant self vpc_net new_prefix count
           (fun avail _ => len avail <= Z.max 0 count)) in H.
  - destruct H as (_ & Hle & Hge). unfold len in *. lia.
  - intros avail cur avail' cur' HP Hlt Hbody.
    apply loop_body_candidate in Hbody as (s & -> & _).
    rewrite len_app_one. lia.
  - unfold len. cbn [List.length]. lia.
Qed.

(** The loop with room for the [n] candidates still missing returns them. *)
Lemma while_loop_runs self vpc_net parent_base parent_prefix new_prefix count first_base :
  is_block vpc_net parent_base parent_prefix ->
  0 <= new_prefix <= 32 ->
  available_azs self <> [] ->
  parent_base <= first_base ->
  first_base + count * block_size new_prefix - 1
    <= parent_base + block_size parent_prefix - 1 ->
  first_base + count * block_size new_prefix - 1 < ipaddress.ALL_ONES ->
  forall n fuel avail cur,
    (n < fuel)%nat ->
    len avail + Z.of_nat n = count ->
    0 <= cur ->
    floor_to_block new_prefix cur = first_base + len avail * block_size new_prefix ->
    (n <> O -> cur <= ipaddress.ALL_ONES) ->
    2 <= floor_to_block new_prefix cur + block_size new_prefix ->
    while_loop fuel self vpc_net new_prefix count avail cur
    = Returns (avail ++ map (nth_candidate self new_prefix first_base)
                            (seq (List.length avail) n)).
Proof.
  intros Hvpc Hp Hazs Hlo Hhi Htop.
  pose proof (block_size_pos new_prefix ltac:(lia)) as Hsize.
  induction n as [| n IH]; intros fuel avail cur Hfuel Hcount Hcur0 Hfloor Hcur Hbottom;
    (destruct fuel as [| fuel]; [lia |]); cbn [while_loop].
  - destruct (Z.ltb_spec (len avail) count); [lia |].
    cbn [seq map]. rewrite app_nil_r. reflexivity.
  - destruct (Z.ltb_spec (len avail) count); [| lia].
    assert (Hlen : 0 <= len avail) by (unfold len; lia).
    rewrite (loop_body_accepts self vpc_net parent_base parent_prefix)
      by (try assumption; try (apply Hcur; discriminate); nia).
    rewrite IH.
    + rewrite length_app. cbn [List.length]. rewrite Nat.add_1_r, <- app_assoc.
      cbn [seq map app].
      change (nth_candidate self new_prefix first_base (List.length avail))
        with (candidate (first_base + len avail * block_size new_prefix) new_prefix
                (label_at (available_azs self) (List.length avail))).
      rewrite Hfloor. reflexivity.
    + lia.
    + rewrite len_app_one. lia.
    + lia.
    + rewrite floor_to_block_next by lia. rewrite len_app_one. lia.
    + intros _. nia.
    + rewrite floor_to_block_next by lia. lia.
Qed.

(** What the loop returns is the closed form, and there was room for it. *)
Lemma while_loop_Returns_closed self vpc_net new_prefix count start l :
  while_loop (S (Z.to_nat count)) self vpc_net new_prefix count [] start = Returns l ->
  l = expected_candidates self new_prefix start (List.length l) /\
  (l <> [] ->
   0 <= new_prefix <= 32 /\
   available_azs self <> [] /\
   ipaddress.network_address vpc_net <= floor_to_block new_prefix start /\
   floor_to_block new_prefix start + len l * block_size new_prefix - 1
     <= ipaddress.broadcast_address vpc_net /\
   floor_to_block new_prefix start + len l * block_size new_prefix - 1
     < ipaddress.ALL_ONES /\
   2 <= floor_to_block new_prefix start + block_size new_prefix).
Proof.
  intros H.
  apply (while_loop_invariant self vpc_net new_prefix count
           (fun avail cur =>
              floor_to_block new_prefix cur
              = floor_to_block new_prefix start + len avail * block_size new_prefix /\
              avail = expected_candidates self new_prefix start (List.length avail) /\
              (avail <> [] ->
               0 <= new_prefix <= 32 /\
               available_azs self <> [] /\
               ipaddress.network_address vpc_net <= floor_to_block new_prefix start /\
               floor_to_block new_prefix start + len avail * block_size new_prefix - 1
                 <= ipaddress.broadcast_address vpc_net /\
               floor_to_block new_prefix start + len avail * block_size new_prefix - 1
                 < ipaddress.ALL_ONES /\
               2 <= floor_to_block new_prefix start + block_size new_prefix))) in H.
  - destruct H as (_ & (_ & Hl & Hroom) & _). split; assumption.
  - intros avail cur avail' cur' (Hfloor & Havail & Hroom) _ Hbody.
    pose proof (loop_body_Returns_room _ _ _ _ _ _ Hbody)
      as (Hp & _ & Hazs & Hlo & Hhi & Htop & Hbottom).
    apply loop_body_candidate_eq in Hbody as [-> ->].
    pose proof (block_size_pos new_prefix ltac:(lia)) as Hsize.
    rewrite len_app_one, length_app. cbn [List.length]. rewrite Nat.add_1_r.
    split; [rewrite floor_to_block_next by lia; lia |]. split.
    + unfold expected_candidates. rewrite seq_S, map_app. cbn [map Nat.add].
      f_equal; [exact Havail |]. unfold nth_candidate.
      unfold len in Hfloor. rewrite Hfloor. reflexivity.
    + intros _. rewrite Hfloor in *.
      destruct avail as [| s avail].
      * unfold len in *. cbn [List.length] in *. repeat split; try assumption; lia.
      * destruct (Hroom ltac:(discriminate)) as (_ & _ & Hlo0 & _ & _ & Hbottom0).
        repeat split; try assumption; lia.
  - split; [unfold len; cbn [List.length]; lia |].
    split; [reflexivity | intros Hne; elim Hne; reflexivity].
Qed.

(** ** The call, exactly *)

Lemma find_next_subnets_Returns_closed self new_prefix count l :
  find_next_subnets self new_prefix count = Returns l ->
  exists vpc_net start,
    ipaddress.ip_network (vpc_cidr self) true = Returns vpc_net /\
    start_ip self vpc_net = Returns start /\
    l = expected_candidates self new_prefix start (Z.to_nat count) /\
    (1 <= count -> has_room self new_prefix count start).
Proof.
  intros H. pose proof (find_next_subnets_length _ _ _ _ H) as Hlen.
  apply find_next_subnets_fuel_Returns in H as (vpc_net & start & Hvpc & Hstart & H).
  exists vpc_net, start. split; [exact Hvpc |]. split; [exact Hstart |].
  apply while_loop_Returns_closed in H as [Hl Hroom]. rewrite Hlen in Hl.
  split; [exact Hl |]. intros Hcount.
  apply parent_range in Hvpc as (_ & _ & Hfirst & Hlast).
  destruct Hroom as (Hp & Hazs & Hlo & Hhi & Htop & Hbottom).
  { intros ->. cbn [List.length] in Hlen. lia. }
  unfold len in *. rewrite Hlen, Z2Nat.id in * by lia.
  unfold has_room. rewrite <- Hfirst, <- Hlast. repeat split; try assumption; lia.
Qed.

Lemma find_next_subnets_below_one self vpc_net start new_prefix count :
  ipaddress.ip_network (vpc_cidr self) true = Returns vpc_net ->
  start_ip self vpc_net = Returns start ->
  count < 1 ->
  find_next_subnets self new_prefix count = Returns [].
Proof.
  intros Hvpc Hstart Hcount. unfold find_next_subnets, find_next_subnets_fuel.
  rewrite Hvpc. cbn [bind]. rewrite Hstart. cbn [bind while_loop].
  unfold len. cbn [List.length].
  destruct (Z.ltb_spec (Z.of_nat 0) count); [lia | reflexivity].
Qed.

Lemma find_next_subnets_has_room self vpc_net start new_prefix count :
  ipaddress.ip_network (vpc_cidr self) true = Returns vpc_net ->
  start_ip self vpc_net = Returns start ->
  1 <= count ->
  has_room self new_prefix count start ->
  find_next_subnets self new_prefix count
  = Returns (expected_candidates self new_prefix start (Z.to_nat count)).
Proof.
  intros Hvpc Hstart Hcount (Hp & Hazs & Hlo & Hhi & Htop & Hbottom).
  pose proof (start_ip_in_range _ _ _ _ Hvpc Hstart) as Hrange.
  unfold find_next_subnets, find_next_subnets_fuel.
  rewrite Hvpc. cbn [bind]. rewrite Hstart. cbn [bind].
  apply parent_range in Hvpc as (_ & Hblock & _ & _).
  unfold block_first, block_last in *.
  rewrite (while_loop_runs self vpc_net _ _ new_prefix count
             (floor_to_block new_prefix start) Hblock Hp Hazs Hlo Hhi Htop
             (Z.to_nat count) _ [] start).
  - reflexivity.
  - lia.
  - unfold len. cbn [List.length]. lia.
  - lia.
  - unfold len. cbn [List.length]. lia.
  - intros _. lia.
  - exact Hbottom.
Qed.

(** The result of a successful call in closed form: candidate [i] is the block
    of [new_prefix] with base [floor(start) + i * 2^(32 - new_prefix)], where
    [floor(start)] is the scan start masked to a block boundary, with the
    generic annotations and the label at index [i mod len(available_azs)]. *)
Theorem find_next_subnets_closed_form self new_prefix count l :
  find_next_subnets self new_prefix count = Returns l ->
  exists vpc_net start,
    ipaddress.ip_network (vpc_cidr self) true = Returns vpc_net /\
    start_ip self vpc_net = Returns start /\
    l = map (fun i =>
               candidate (floor_to_block new_prefix start
                          + Z.of_nat i * block_size new_prefix)
                         new_prefix (label_at (available_azs self) i))
            (seq 0 (Z.to_nat count)).
Proof.
  intros H. apply find_next_subnets_Returns_closed in H
    as (vpc_net & start & Hvpc & Hstart & Hl & _).
  exists vpc_net, start. auto.
Qed.

(** Exhaustion, exactly.  Once the parent and the scan start are read, a call
    for at least one candidate returns if and only if there is room: the
    prefix length is in [0, 32], the label list is not empty, the block at the
    masked scan start does not begin below the parent, the last of the [count]
    blocks ends inside the parent and below 255.255.255.255, and the first
    block is not 0.0.0.0/32. *)
Theorem find_next_subnets_returns_iff_room self vpc_net start new_prefix count :
  ipaddress.ip_network (vpc_cidr self) true = Returns vpc_net ->
  start_ip self vpc_net = Returns start ->
  1 <= count ->
  (has_room self new_prefix count start
   <-> exists l, find_next_subnets self new_prefix count = Returns l).
Proof.
  intros Hvpc Hstart Hcount. split.
  - intros Hroom. eexists.
    apply (find_next_subnets_has_room self vpc_net start); assumption.
  - intros [l H]. apply find_next_subnets_Returns_closed in H
      as (vpc_net' & start' & Hvpc' & Hstart' & _ & Hroom).
    rewrite Hvpc in Hvpc'. injection Hvpc' as <-.
    rewrite Hstart in Hstart'. injection Hstart' as <-.
    apply Hroom. exact Hcount.
Qed.

(** ** Adjacent blocks *)

Lemma nth_error_map_seq {A : Type} (f : nat -> A) n i x :
  nth_error (map f (seq 0 n)) i = Some x -> x = f i /\ (i < n)%nat.
Proof.
  intros H.
  assert (Hi : (i < n)%nat).
  { rewrite <- (length_seq n 0), <- (length_map f). apply nth_error_Some. congruence. }
  split; [| exact Hi].
  rewrite nth_error_map in H.
  destruct (nth_error (seq 0 n) i) as [k |] eqn:Hk; [| discriminate].
  injection H as <-. apply (nth_error_nth _ _ O) in Hk.
  rewrite seq_nth in Hk by exact Hi. subst k. reflexivity.
Qed.

Lemma expected_candidates_nth self new_prefix start n i s :
  nth_error (expected_candidates self new_prefix start n) i = Some s ->
  (i < n)%nat /\
  network_address s
  = floor_to_block new_prefix start + Z.of_nat i * block_size new_prefix /\
  broadcast_address s = network_address s + block_size new_prefix - 1 /\
  cidr_block s = mk_cidr (network_address s) new_prefix /\
  suggested_az s = label_at (available_azs self) i.
Proof.
  intros H. apply nth_error_map_seq in H as [-> Hi].
  split; [exact Hi |]. repeat split.
Qed.

(** The candidates of a call are adjacent blocks: each begins at the address
    after the broadcast address of the one before, so no two of them share an
    address. *)
Theorem candidates_adjacent self new_prefix count l :
  find_next_subnets self new_prefix count = Returns l ->
  (forall i si sj,
      nth_error l i = Some si -> nth_error l (S i) = Some sj ->
      network_address sj = broadcast_address si + 1) /\
  (forall i j si sj, (i < j)%nat ->
      nth_error l i = Some si -> nth_error l j = Some sj ->
      broadcast_address si < network_address sj /\
      intersects (network_address si) (broadcast_address si)
                 (network_address sj) (broadcast_address sj) = false).
Proof.
  intros H. apply find_next_subnets_Returns_closed in H
    as (vpc_net & start & _ & _ & -> & Hroom).
  assert (Hsize : forall i s,
             nth_error (expected_candidates self new_prefix start (Z.to_nat count)) i
             = Some s -> 0 < block_size new_prefix).
  { intros i s Hi. apply expected_candidates_nth in Hi as (Hi & _).
    destruct (Hroom ltac:(lia)) as (Hp & _). apply block_size_pos. lia. }
  split.
  - intros i si sj Hi Hj.
    apply expected_candidates_nth in Hi as (_ & Hni & Hbi & _).
    apply expected_candidates_nth in Hj as (_ & Hnj & _). lia.
  - intros i j si sj Hij Hi Hj. pose proof (Hsize _ _ Hi).
    apply expected_candidates_nth in Hi as (_ & Hni & Hbi & _).
    apply expected_candidates_nth in Hj as (_ & Hnj & Hbj & _).
    assert (broadcast_address si < network_address sj) by nia.
    split; [assumption |]. unfold intersects. lia.
Qed.

(** ** Asking for fewer or more *)

Lemma has_room_fewer self new_prefix count count' start :
  1 <= count <= count' ->
  has_room self new_prefix count' start -> has_room self new_prefix count start.
Proof.
  intros Hc (Hp & Hazs & Hlo & Hhi & Htop & Hbottom).
  pose proof (block_size_pos new_prefix ltac:(lia)).
  unfold has_room. repeat split; try assumption; nia.
Qed.

Lemma firstn_seq_le n : forall s m, (n <= m)%nat -> firstn n (seq s m) = seq s n.
Proof.
  induction n as [| n IH]; intros s m Hnm; [reflexivity |].
  destruct m as [| m]; [lia |]. cbn [seq firstn]. rewrite IH by lia. reflexivity.
Qed.

Lemma expected_candidates_firstn self new_prefix start n m :
  (n <= m)%nat ->
  firstn n (expected_candidates self new_prefix start m)
  = expected_candidates self new_prefix start n.
Proof.
  intros Hnm. unfold expected_candidates.
  rewrite firstn_map, firstn_seq_le by exact Hnm. reflexivity.
Qed.

(** An error of the loop does not go away with a larger [count]. *)
Lemma while_loop_Raises_larger self vpc_net new_prefix count count' e :
  count <= count' ->
  forall fuel avail cur,
    while_loop fuel self vpc_net new_prefix count avail cur = Raises e ->
    while_loop fuel self vpc_net new_prefix count' avail cur = Raises e.
Proof.
  intros Hc. induction fuel as [| fuel IH]; intros avail cur H;
    cbn [while_loop] in *; [discriminate |].
  destruct (Z.ltb_spec (len avail) count); [| discriminate].
  destruct (Z.ltb_spec (len avail) count'); [| lia].
  destruct (loop_body self vpc_net new_prefix avail cur) as [[avail' cur'] | e' |];
    [apply IH; exact H | exact H | discriminate].
Qed.

(** A call for fewer candidates returns the first ones of a call for more; a
    call for more raises the error a call for fewer raised. *)
Theorem find_next_subnets_count_monotone self new_prefix count count' :
  0 <= count <= count' ->
  (forall l', find_next_subnets self new_prefix count' = Returns l' ->
              find_next_subnets self new_prefix count
              = Returns (firstn (Z.to_nat count) l')) /\
  (forall e, find_next_subnets self new_prefix count = Raises e ->
             find_next_subnets self new_prefix count' = Raises e).
Proof.
  intros Hc. split.
  - intros l' H. apply find_next_subnets_Returns_closed in H
      as (vpc_net & start & Hvpc & Hstart & -> & Hroom).
    rewrite expected_candidates_firstn by lia.
    destruct (Z.le_gt_cases 1 count) as [Hone | Hzero].
    + apply (find_next_subnets_has_room self vpc_net start); try assumption.
      apply (has_room_fewer self new_prefix count count'); [lia |].
      apply Hroom. lia.
    + replace (Z.to_nat count) with O by lia.
      apply (find_next_subnets_below_one self vpc_net start); assumption.
  - intros e H.
    assert (Hmore : find_next_subnets_fuel (S (Z.to_nat count')) self new_prefix count
                    = Raises e).
    { replace (S (Z.to_nat count'))
        with (S (Z.to_nat count) + (Z.to_nat count' - Z.to_nat count))%nat by lia.
      rewrite find_next_subnets_fuel_more; [exact H |].
      apply find_next_subnets_fuel_enough. lia. }
    unfold find_next_subnets, find_next_subnets_fuel in *.
    destruct (ipaddress.ip_network (vpc_cidr self) true) as [vpc_net | e' |];
      cbn [bind] in *; try assumption.
    destruct (start_ip self vpc_net) as [start | e' |]; cbn [bind] in *;
      try assumption.
    apply (while_loop_Raises_larger self vpc_net new_prefix count count'); [lia |].
    exact Hmore.
Qed.

(** ** What the call reads *)

Lemma _find_last_ip_last self blocks last_block :
  existing_subnets self = blocks ++ [last_block] ->
  _find_last_ip self
  = (last_subnet <- ipaddress.ip_network last_block true ;;
     Returns (Some (ipaddress.broadcast_address last_subnet))).
Proof.
  intros H. unfold _find_last_ip.
  destruct (existing_subnets self) as [| first rest] eqn:E.
  - destruct blocks; discriminate.
  - rewrite H, last_last. reflexivity.
Qed.

Lemma loop_body_ext self1 self2 vpc_net new_prefix avail cur :
  vpc_cidr self1 = vpc_cidr self2 ->
  available_azs self1 = available_azs self2 ->
  loop_body self1 vpc_net new_prefix avail cur
  = loop_body self2 vpc_net new_prefix avail cur.
Proof. intros H1 H2. unfold loop_body. rewrite H1, H2. reflexivity. Qed.

Lemma while_loop_ext self1 self2 vpc_net new_prefix count :
  vpc_cidr self1 = vpc_cidr self2 ->
  available_azs self1 = available_azs self2 ->
  forall fuel avail cur,
    while_loop fuel self1 vpc_net new_prefix count avail cur
    = while_loop fuel self2 vpc_net new_prefix count avail cur.
Proof.
  intros H1 H2. induction fuel as [| fuel IH]; intros avail cur; [reflexivity |].
  cbn [while_loop]. rewrite (loop_body_ext self1 self2) by assumption.
  destruct (len avail <? count); [| reflexivity].
  destruct (loop_body self2 vpc_net new_prefix avail cur) as [[avail' cur'] | e |];
    [apply IH | reflexivity | reflexivity].
Qed.

(** Of the existing subnets only the last one is read: two finders whose lists
    end with the same entry give the same outcome, whatever comes before it
    (entries that do not parse, overlap, or lie above the last one included). *)
Theorem only_last_subnet_read vpc blocks1 blocks2 last_block azs new_prefix count :
  find_next_subnets (mk_finder vpc (blocks1 ++ [last_block]) azs) new_prefix count
  = find_next_subnets (mk_finder vpc (blocks2 ++ [last_block]) azs) new_prefix count.
Proof.
  unfold find_next_subnets, find_next_subnets_fuel, start_ip.
  rewrite (_find_last_ip_last _ blocks1 last_block) by reflexivity.
  rewrite (_find_last_ip_last _ blocks2 last_block) by reflexivity.
  cbn [vpc_cidr].
  destruct (ipaddress.ip_network vpc true) as [vpc_net | e |]; cbn [bind];
    try reflexivity.
  destruct (ipaddress.ip_network last_block true) as [n | e |]; cbn [bind];
    try reflexivity.
  destruct (ipaddress.add (ipaddress.broadcast_address n) 1) as [start | e |];
    cbn [bind]; try reflexivity.
  apply while_loop_ext; reflexivity.
Qed.

(** ** The errors of a call *)

Lemma ip_network_Raises text strict e :
  ipaddress.ip_network text strict = Raises e -> is_ValueError e = true.
Proof.
  unfold ipaddress.ip_network.
  repeat match goal with |- context [if ?c then _ else _] => destruct c end;
    intros [= <-]; reflexivity.
Qed.

Lemma IPv4Address_Raises a e :
  ipaddress.IPv4Address a = Raises e ->
  e = AddressValueError (msg_not_permitted a) /\ (a < 0 \/ ipaddress.ALL_ONES < a).
Proof.
  unfold ipaddress.IPv4Address.
  destruct (Z.ltb_spec a 0); [intros [= <-]; split; [reflexivity | lia] |].
  destruct (Z.gtb_spec a ipaddress.ALL_ONES); [| discriminate].
  intros [= <-]. split; [reflexivity | lia].
Qed.

Lemma start_ip_Raises self vpc_net e :
  start_ip self vpc_net = Raises e -> is_ValueError e = true.
Proof.
  unfold start_ip, _find_last_ip.
  destruct (existing_subnets self) as [| first rest]; cbn [bind]; [discriminate |].
  destruct (ipaddress.ip_network (last (first :: rest) first) true)
    as [n | e' |] eqn:Hn; cbn [bind].
  - intros H. apply IPv4Address_Raises in H as [-> _]. reflexivity.
  - intros [= <-]. apply ip_network_Raises in Hn. exact Hn.
  - discriminate.
Qed.

(** A label is found whenever the list has one. *)
Lemma label_lookup azs n :
  azs <> [] ->
  (i <- py_mod (Z.of_nat n) (len azs) ;; getitem azs i) = Returns (label_at azs n).
Proof.
  intros Hazs.
  assert (Hlen : 0 < len azs).
  { unfold len. destruct azs; [congruence | cbn [List.length]; lia]. }
  unfold py_mod. destruct (Z.eqb_spec (len azs) 0); [lia |]. cbn [bind].
  unfold getitem, label_at.
  pose proof (Z.mod_pos_bound (Z.of_nat n) (len azs) Hlen) as Hb.
  rewrite (nth_error_nth' azs ""%string) by (unfold len in *; lia).
  reflexivity.
Qed.

Lemma loop_body_Raises self vpc_net new_prefix avail cur e :
  loop_body self vpc_net new_prefix avail cur = Raises e ->
  (exists m, e = ValueError (msg_error_calculating m)) \/
  (e = ZeroDivisionError msg_modulo_by_zero /\ available_azs self = []).
Proof.
  unfold loop_body, try_except.
  destruct (ipaddress.ip_network (mk_cidr cur new_prefix) false)
    as [next_net | e0 |] eqn:Hnet; cbn [bind].
  2: { apply ip_network_Raises in Hnet. rewrite Hnet.
       intros [= <-]. left. eexists. reflexivity. }
  2: { discriminate. }
  destruct (ipaddress.subnet_of next_net vpc_net).
  2: { cbn [is_ValueError]. intros [= <-]. left. eexists. reflexivity. }
  destruct (ipaddress.add (ipaddress.network_address next_net) 1)
    as [first | e0 |] eqn:Hfirst; cbn [bind].
  2: { apply IPv4Address_Raises in Hfirst as [-> _]. cbn [is_ValueError].
       intros [= <-]. left. eexists. reflexivity. }
  2: { discriminate. }
  destruct (ipaddress.sub (ipaddress.broadcast_address next_net) 1)
    as [last | e0 |] eqn:Hlast; cbn [bind].
  2: { apply IPv4Address_Raises in Hlast as [-> _]. cbn [is_ValueError].
       intros [= <-]. left. eexists. reflexivity. }
  2: { discriminate. }
  destruct (available_azs self) as [| az azs] eqn:Hazs.
  - cbn. intros [= <-]. right. split; reflexivity.
  - pose proof (label_lookup (az :: azs) (List.length avail) ltac:(discriminate)) as Hl.
    fold (len avail) in Hl.
    destruct (py_mod (len avail) (len (az :: azs))) as [i | e0 |]; cbn [bind] in *;
      try discriminate.
    rewrite Hl. cbn [bind].
    destruct (ipaddress.add (ipaddress.broadcast_address next_net) 1)
      as [next_ip | e0 |] eqn:Hnext; cbn [bind]; try discriminate.
    apply IPv4Address_Raises in Hnext as [-> _]. cbn [is_ValueError].
    intros [= <-]. left. eexists. reflexivity.
Qed.

Lemma while_loop_Raises self vpc_net new_prefix count e :
  forall fuel avail cur,
    while_loop fuel self vpc_net new_prefix count avail cur = Raises e ->
    exists avail' cur',
      loop_body self vpc_net new_prefix avail' cur' = Raises e.
Proof.
  induction fuel as [| fuel IH]; intros avail cur H; cbn [while_loop] in H;
    [discriminate |].
  destruct (len avail <? count); [| discriminate].
  destruct (loop_body self vpc_net new_prefix avail cur)
    as [[avail' cur'] | e' |] eqn:Hbody; [| | discriminate].
  - apply (IH avail' cur'). exact H.
  - injection H as <-. exists avail, cur. exact Hbody.
Qed.

(** Where an error of a call comes from. *)
Lemma find_next_subnets_Raises self new_prefix count e :
  find_next_subnets self new_prefix count = Raises e ->
  (is_ValueError e = true \/
   (e = ZeroDivisionError msg_modulo_by_zero /\ available_azs self = [])) /\
  (ipaddress.ip_network (vpc_cidr self) true = Raises e \/
   (exists vpc_net, ipaddress.ip_network (vpc_cidr self) true = Returns vpc_net /\
                    start_ip self vpc_net = Raises e) \/
   (exists m, e = ValueError (msg_error_calculating m)) \/
   (e = ZeroDivisionError msg_modulo_by_zero /\ available_azs self = [])).
Proof.
  unfold find_next_subnets, find_next_subnets_fuel. intros H.
  destruct (ipaddress.ip_network (vpc_cidr self) true) as [vpc_net | e' |] eqn:Hvpc;
    cbn [bind] in H; [| | discriminate].
  2: { injection H as <-. split; [left | left; reflexivity].
       apply ip_network_Raises in Hvpc. exact Hvpc. }
  destruct (start_ip self vpc_net) as [start | e' |] eqn:Hstart;
    cbn [bind] in H; [| | discriminate].
  2: { injection H as <-. split.
       - left. apply start_ip_Raises in Hstart. exact Hstart.
       - right. left. exists vpc_net. split; [reflexivity | exact Hstart]. }
  apply while_loop_Raises in H as (avail & cur & H).
  apply loop_body_Raises in H as [[m ->] | H].
  - split; [left; reflexivity |]. right. right. left. exists m. reflexivity.
  - split; [right; exact H |]. right. right. right. exact H.
Qed.

(** Every error of a call is a [ValueError] (or its subclass
    [AddressValueError]), except for the [ZeroDivisionError] of an empty label
    list; an [IndexError] is never raised.  The error comes from reading the
    parent or the last existing subnet, and is then raised as it is, or from
    the loop, and is then [ValueError("Error calculating next subnet: ...")]
    or the [ZeroDivisionError]. *)
Theorem find_next_subnets_error_kinds self new_prefix count e :
  find_next_subnets self new_prefix count = Raises e ->
  (is_ValueError e = true \/
   (e = ZeroDivisionError msg_modulo_by_zero /\ available_azs self = [])) /\
  (ipaddress.ip_network (vpc_cidr self) true = Raises e \/
   (exists vpc_net, ipaddress.ip_network (vpc_cidr self) true = Returns vpc_net /\
                    start_ip self vpc_net = Raises e) \/
   (exists m, e = ValueError (msg_error_calculating m)) \/
   (e = ZeroDivisionError msg_modulo_by_zero /\ available_azs self = [])).
Proof. apply find_next_subnets_Raises. Qed.

(** ** Labels and placement *)

Lemma label_lookup_bind {B : Type} azs n (k : string -> outcome B) :
  azs <> [] ->
  (i <- py_mod (Z.of_nat n) (len azs) ;; az <- getitem azs i ;; k az)
  = k (label_at azs n).
Proof.
  intros Hazs. pose proof (label_lookup azs n Hazs) as H.
  destruct (py_mod (Z.of_nat n) (len azs)) as [i | e |]; cbn [bind] in *;
    try discriminate.
  rewrite H. reflexivity.
Qed.

(** With a label list that is not empty, a pass is the code without the
    label lookup, the label being [label_at]. *)
Lemma loop_body_labelled self vpc_net new_prefix avail cur :
  available_azs self <> [] ->
  loop_body self vpc_net new_prefix avail cur
  = try_except
      (next_net <- ipaddress.ip_network (mk_cidr cur new_prefix) false ;;
       if ipaddress.subnet_of next_net vpc_net then
         first <- ipaddress.add (ipaddress.network_address next_net) 1 ;;
         last <- ipaddress.sub (ipaddress.broadcast_address next_net) 1 ;;
         current_ip <- ipaddress.add (ipaddress.broadcast_address next_net) 1 ;;
         Returns (avail ++ [ {| cidr_block := ipaddress.str next_net;
                                network_address := ipaddress.network_address next_net;
                                broadcast_address := ipaddress.broadcast_address next_net;
                                first_usable := first;
                                last_usable := last;
                                usable_ips := ipaddress.num_addresses next_net - 2;
                                suggested_az :=
                                  label_at (available_azs self) (List.length avail) |} ],
                  current_ip)
       else Raises (ValueError (msg_no_more_space (vpc_cidr self) new_prefix)))
      (fun e => Raises (ValueError (msg_error_calculating (exn_message e)))).
Proof.
  intros Hazs. unfold loop_body. f_equal.
  destruct (ipaddress.ip_network (mk_cidr cur new_prefix) false) as [next_net | e |];
    cbn [bind]; try reflexivity.
  destruct (ipaddress.subnet_of next_net vpc_net); [| reflexivity].
  destruct (ipaddress.add (ipaddress.network_address next_net) 1) as [first | e |];
    cbn [bind]; try reflexivity.
  destruct (ipaddress.sub (ipaddress.broadcast_address next_net) 1) as [last | e |];
    cbn [bind]; try reflexivity.
  unfold len at 1. rewrite label_lookup_bind by exact Hazs. reflexivity.
Qed.

Lemma loop_body_same_placement self1 self2 vpc_net new_prefix avail1 avail2 cur :
  vpc_cidr self1 = vpc_cidr self2 ->
  available_azs self1 <> [] -> available_azs self2 <> [] ->
  map placement avail1 = map placement avail2 ->
  outcome_map (fun r => (map placement (fst r), snd r))
              (loop_body self1 vpc_net new_prefix avail1 cur)
  = outcome_map (fun r => (map placement (fst r), snd r))
                (loop_body self2 vpc_net new_prefix avail2 cur).
Proof.
  intros Hvpc H1 H2 Havail.
  rewrite !loop_body_labelled by assumption. rewrite Hvpc.
  destruct (ipaddress.ip_network (mk_cidr cur new_prefix) false) as [next_net | e |];
    cbn [bind try_except]; try reflexivity.
  destruct (ipaddress.subnet_of next_net vpc_net); [| reflexivity].
  destruct (ipaddress.add (ipaddress.network_address next_net) 1) as [first | e |];
    cbn [bind try_except]; try reflexivity.
  destruct (ipaddress.sub (ipaddress.broadcast_address next_net) 1) as [last | e |];
    cbn [bind try_except]; try reflexivity.
  destruct (ipaddress.add (ipaddress.broadcast_address next_net) 1) as [next_ip | e |];
    cbn [bind try_except]; try reflexivity.
  cbn [outcome_map fst snd]. rewrite !map_app, Havail. reflexivity.
Qed.

Lemma while_loop_same_placement self1 self2 vpc_net new_prefix count :
  vpc_cidr self1 = vpc_cidr self2 ->
  available_azs self1 <> [] -> available_azs self2 <> [] ->
  forall fuel avail1 avail2 cur,
    map placement avail1 = map placement avail2 ->
    outcome_map (map placement)
                (while_loop fuel self1 vpc_net new_prefix count avail1 cur)
    = outcome_map (map placement)
                  (while_loop fuel self2 vpc_net new_prefix count avail2 cur).
Proof.
  intros Hvpc H1 H2.
  induction fuel as [| fuel IH]; intros avail1 avail2 cur Havail; [reflexivity |].
  cbn [while_loop].
  assert (Hlen : len avail1 = len avail2).
  { unfold len. f_equal.
    rewrite <- (length_map placement avail1), <- (length_map placement avail2).
    rewrite Havail. reflexivity. }
  rewrite Hlen. destruct (len avail2 <? count).
  - pose proof (loop_body_same_placement self1 self2 vpc_net new_prefix
                  avail1 avail2 cur Hvpc H1 H2 Havail) as Hbody.
    destruct (loop_body self1 vpc_net new_prefix avail1 cur) as [[a1 c1] | e1 |];
      destruct (loop_body self2 vpc_net new_prefix avail2 cur) as [[a2 c2] | e2 |];
      cbn [outcome_map fst snd] in Hbody; try discriminate; try reflexivity.
    + injection Hbody as Ha ->. apply IH. exact Ha.
    + injection Hbody as ->. reflexivity.
  - cbn [outcome_map]. rewrite Havail. reflexivity.
Qed.

(** The labels only label: two finders with the same parent and existing
    subnets and label lists that are not empty give the same error, or
    candidates with the same blocks and address annotations. *)
Theorem labels_do_not_affect_placement self1 self2 new_prefix count :
  vpc_cidr self1 = vpc_cidr self2 ->
  existing_subnets self1 = existing_subnets self2 ->
  available_azs self1 <> [] -> available_azs self2 <> [] ->
  outcome_map (map placement) (find_next_subnets self1 new_prefix count)
  = outcome_map (map placement) (find_next_subnets self2 new_prefix count).
Proof.
  intros Hvpc Hexisting H1 H2.
  unfold find_next_subnets, find_next_subnets_fuel, start_ip, _find_last_ip.
  rewrite Hvpc, Hexisting.
  destruct (ipaddress.ip_network (vpc_cidr self2) true) as [vpc_net | e |];
    cbn [bind]; try reflexivity.
  match goal with
  | |- context [bind ?x _] =>
      destruct x as [start | e |]; cbn [bind]; try reflexivity
  end.
  apply while_loop_same_placement; try assumption. reflexivity.
Qed.

(** ** Calling again after the candidates were created *)

Lemma map_seq_shift {A : Type} (g : nat -> A) b :
  forall a, map g (seq a b) = map (fun i => g (a + i)%nat) (seq 0 b).
Proof.
  induction b as [| b IH]; intros a; [reflexivity |].
  cbn [seq map]. rewrite Nat.add_0_r. f_equal.
  rewrite IH, <- seq_shift, map_map. apply map_ext.
  intros i. f_equal. lia.
Qed.

Lemma placement_candidate base prefix az az' :
  placement (candidate base prefix az) = placement (candidate base prefix az').
Proof. reflexivity. Qed.

(** The last block of a closed form is an AddressBlock. *)
Lemma nth_candidate_AddressBlock self new_prefix start i :
  0 <= new_prefix <= 32 ->
  0 <= floor_to_block new_prefix start ->
  floor_to_block new_prefix start + (Z.of_nat i + 1) * block_size new_prefix - 1
    <= ipaddress.ALL_ONES ->
  AddressBlock
    (cidr_block (nth_candidate self new_prefix (floor_to_block new_prefix start) i)).
Proof.
  intros Hp Hb0 Htop. pose proof (block_size_pos new_prefix ltac:(lia)) as Hsize.
  unfold nth_candidate, candidate, AddressBlock. cbn [cidr_block cidr_prefix cidr_address].
  split; [exact Hp |]. split; [nia |].
  unfold floor_to_block.
  replace (block_size new_prefix * (start / block_size new_prefix)
           + Z.of_nat i * block_size new_prefix)
    with ((start / block_size new_prefix + Z.of_nat i) * block_size new_prefix) by lia.
  apply Z_mod_mult.
Qed.

(** The allocator is incremental.  When a call for [k + m] candidates returns
    and the first [k] of them are created as subnets, listed after the existing
    ones, a call for [m] candidates on the new state returns the blocks that
    were the last [m] of the first call (their labels start again at the first
    label). *)
Theorem find_next_subnets_incremental self new_prefix k m l :
  1 <= k -> 0 <= m ->
  find_next_subnets self new_prefix (k + m) = Returns l ->
  exists l',
    find_next_subnets (commit self (firstn (Z.to_nat k) l)) new_prefix m = Returns l' /\
    map placement l = map placement (firstn (Z.to_nat k) l) ++ map placement l'.
Proof.
  intros Hk Hm H.
  apply find_next_subnets_Returns_closed in H
    as (vpc_net & start & Hvpc & Hstart & -> & Hroom).
  destruct (Hroom ltac:(lia)) as (Hp & Hazs & Hlo & Hhi & Htop & Hbottom).
  pose proof (block_size_pos new_prefix ltac:(lia)) as Hsize.
  pose proof Hvpc as Hparent.
  apply parent_range in Hparent as ((_ & Hparent0 & _) & _).
  unfold block_first in Hlo.
  set (b0 := floor_to_block new_prefix start) in *.
  rewrite expected_candidates_firstn by lia.
  set (self' := commit self (expected_candidates self new_prefix start (Z.to_nat k))).
  (* the scan start of the second call *)
  destruct (Z.to_nat k) as [| k'] eqn:Hk'; [lia |].
  assert (Hkz : k = Z.of_nat k' + 1) by lia.
  assert (Hexisting : existing_subnets self'
                      = (existing_subnets self
                         ++ map cidr_block (expected_candidates self new_prefix start k'))
                        ++ [cidr_block (nth_candidate self new_prefix b0 k')]).
  { subst self'. unfold commit, expected_candidates. cbn [existing_subnets].
    rewrite seq_S, !map_app, <- app_assoc. reflexivity. }
  assert (Hlast : AddressBlock (cidr_block (nth_candidate self new_prefix b0 k'))).
  { apply nth_candidate_AddressBlock; [exact Hp | lia | nia]. }
  assert (Hstart' : start_ip self' vpc_net = Returns (b0 + k * block_size new_prefix)).
  { rewrite (start_ip_after_last self' vpc_net _ _ Hexisting Hlast).
    unfold block_last, nth_candidate, candidate. cbn [cidr_block cidr_address cidr_prefix].
    replace (b0 + Z.of_nat k' * block_size new_prefix + block_size new_prefix - 1 + 1)
      with (b0 + k * block_size new_prefix) by lia.
    apply IPv4Address_in_range. nia. }
  assert (Hfloor' : floor_to_block new_prefix (b0 + k * block_size new_prefix)
                    = b0 + k * block_size new_prefix).
  { subst b0. unfold floor_to_block at 2 3.
    replace (block_size new_prefix * (start / block_size new_prefix)
             + k * block_size new_prefix)
      with ((start / block_size new_prefix + k) * block_size new_prefix) by lia.
    apply floor_to_block_multiple. lia. }
  assert (Hvpc' : ipaddress.ip_network (vpc_cidr self') true = Returns vpc_net)
    by exact Hvpc.
  destruct (Z.le_gt_cases 1 m) as [Hone | Hzero].
  - exists (expected_candidates self' new_prefix (b0 + k * block_size new_prefix)
              (Z.to_nat m)).
    split.
    + apply (find_next_subnets_has_room self' vpc_net); try assumption.
      unfold has_room. rewrite Hfloor'. subst self'. cbn [commit vpc_cidr available_azs].
      unfold block_first. repeat split; try assumption; nia.
    + unfold expected_candidates. rewrite Hfloor'.
      replace (Z.to_nat (k + m)) with (S k' + Z.to_nat m)%nat by lia.
      rewrite seq_app, !map_app. f_equal.
      rewrite (map_seq_shift _ (Z.to_nat m) (0 + S k')), !map_map.
      apply map_ext. intros i. unfold nth_candidate.
      match goal with
      | |- placement (candidate ?x _ _) = placement (candidate ?y _ _) =>
          replace x with y by lia
      end.
      apply placement_candidate.
  - exists []. split.
    + apply (find_next_subnets_below_one self' vpc_net
               (b0 + k * block_size new_prefix)); assumption.
    + replace (Z.to_nat (k + m)) with (S k') by lia.
      cbn [map]. rewrite app_nil_r. reflexivity.
Qed.

(** ** The report *)

Lemma then_print_Returns {A B : Type} printed (a : A) (k : A -> printing B) :
  then_print (printed, Returns a) k = (printed ++ fst (k a), snd (k a)).
Proof. unfold then_print. destruct (k a). reflexivity. Qed.

Lemma then_print_print {B : Type} line (k : unit -> printing B) :
  then_print (print line) k = (line :: fst (k tt), snd (k tt)).
Proof. unfold print. rewrite then_print_Returns. reflexivity. Qed.

Lemma then_print_not_OutOfFuel {A B : Type} (x : printing A) (k : A -> printing B) :
  snd x <> OutOfFuel -> (forall a, snd (k a) <> OutOfFuel) ->
  snd (then_print x k) <> OutOfFuel.
Proof.
  intros Hx Hk. destruct x as [printed [a | e |]]; cbn [snd] in *.
  - rewrite then_print_Returns. apply Hk.
  - discriminate.
  - elim Hx. reflexivity.
Qed.

Lemma print_existing_not_OutOfFuel subnets : snd (print_existing subnets) <> OutOfFuel.
Proof.
  induction subnets as [| subnet rest IH]; cbn [print_existing]; [discriminate |].
  apply then_print_not_OutOfFuel; [apply ip_network_not_OutOfFuel |].
  intros network. cbv beta. rewrite then_print_print. exact IH.
Qed.

Lemma print_candidates_Returns next_subnets :
  forall i, snd (print_candidates i next_subnets) = Returns tt.
Proof.
  induction next_subnets as [| subnet rest IH]; intros i; cbn [print_candidates];
    [reflexivity |].
  rewrite !then_print_print. cbn [snd]. apply IH.
Qed.

Lemma print_subnet_info_try_not_OutOfFuel vpc_id self new_prefix :
  snd (print_subnet_info_try vpc_id self new_prefix) <> OutOfFuel.
Proof.
  unfold print_subnet_info_try. rewrite !then_print_print. cbn [snd].
  apply then_print_not_OutOfFuel.
  { destruct (existing_subnets self); [discriminate | apply print_existing_not_OutOfFuel]. }
  intros _. cbv beta. cbn [snd].
  apply then_print_not_OutOfFuel.
  { apply find_next_subnets_fuel_enough. lia. }
  intros l. cbv beta. rewrite print_candidates_Returns. discriminate.
Qed.

(** [print_subnet_info] never raises: whatever the finder holds and whatever
    prefix is asked for, every error ends up as a line of the report. *)
Theorem print_subnet_info_never_raises zero_division_text vpc_id self new_prefix :
  snd (print_subnet_info zero_division_text vpc_id self new_prefix) = Returns tt.
Proof.
  unfold print_subnet_info.
  pose proof (print_subnet_info_try_not_OutOfFuel vpc_id self new_prefix) as H.
  destruct (print_subnet_info_try vpc_id self new_prefix) as [printed [[] | e |]];
    cbn [snd] in *.
  - reflexivity.
  - destruct (is_ValueError e); reflexivity.
  - elim H. reflexivity.
Qed.

(** The lines of existing subnets that are AddressBlocks. *)
Lemma print_existing_AddressBlocks subnets :
  Forall AddressBlock subnets ->
  print_existing subnets = (map existing_line subnets, Returns tt).
Proof.
  induction 1 as [| subnet rest Hsubnet _ IH]; cbn [print_existing map];
    [reflexivity |].
  destruct (ip_network_AddressBlock subnet Hsubnet) as (n & Hn & Hblock).
  rewrite Hn. unfold quiet. rewrite then_print_Returns, then_print_print, IH.
  cbn [fst snd app]. rewrite (is_block_num_addresses _ _ _ Hblock). reflexivity.
Qed.

Lemma print_subnet_info_try_head vpc_id self new_prefix :
  Forall AddressBlock (existing_subnets self) ->
  print_subnet_info_try vpc_id self new_prefix
  = then_print (report_head vpc_id self new_prefix, Returns tt)
      (fun _ => next_subnets <~ quiet (find_next_subnets self new_prefix 3) ;;
                print_candidates 1 next_subnets).
Proof.
  intros Hvalid. unfold print_subnet_info_try, report_head, report_header.
  rewrite !then_print_print.
  assert (Hexisting :
            match existing_subnets self with
            | [] => print "No existing subnets found"
            | _ :: _ => print_existing (existing_subnets self)
            end
            = (match existing_subnets self with
               | [] => ["No existing subnets found"%string]
               | _ :: _ => map existing_line (existing_subnets self)
               end, Returns tt)).
  { destruct (existing_subnets self) as [| b rest] eqn:E; [reflexivity |].
    apply print_existing_AddressBlocks. exact Hvalid. }
  rewrite Hexisting, !then_print_Returns.
  cbn [fst snd app]. rewrite <- app_assoc. reflexivity.
Qed.

(** The report of a call that fails.  When the existing subnets are
    AddressBlocks and the call for three candidates raises, no candidate is
    printed: the report is its head followed by one line, ["Error: ..."] for a
    [ValueError] and ["Unexpected error: ..."] otherwise, which happens only
    with an empty label list. *)
Theorem print_subnet_info_failure zero_division_text vpc_id self new_prefix e :
  Forall AddressBlock (existing_subnets self) ->
  find_next_subnets self new_prefix 3 = Raises e ->
  print_subnet_info zero_division_text vpc_id self new_prefix
  = (report_head vpc_id self new_prefix ++ [error_line zero_division_text e],
     Returns tt) /\
  (is_ValueError e = false -> available_azs self = []).
Proof.
  intros Hvalid Hcall. split.
  - unfold print_subnet_info. rewrite print_subnet_info_try_head by exact Hvalid.
    rewrite Hcall. unfold quiet, then_print at 2. rewrite then_print_Returns.
    cbn [fst snd]. rewrite app_nil_r. unfold error_line.
    destruct (is_ValueError e); reflexivity.
  - intros Hkind. apply find_next_subnets_Raises in Hcall as [[H | [_ H]] _];
      [congruence | exact H].
Qed.

Lemma print_candidates_cons i subnet rest :
  print_candidates i (subnet :: rest)
  = (candidate_lines i subnet ++ fst (print_candidates (i + 1) rest), Returns tt).
Proof.
  cbn [print_candidates]. rewrite !then_print_print.
  cbn [fst snd]. rewrite print_candidates_Returns. reflexivity.
Qed.

(** The report of a call that succeeds.  When the existing subnets are
    AddressBlocks and the call returns, the report is its head followed by
    the six lines of each of exactly three candidates, numbered 1, 2 and 3. *)
Theorem print_subnet_info_success zero_division_text vpc_id self new_prefix l :
  Forall AddressBlock (existing_subnets self) ->
  find_next_subnets self new_prefix 3 = Returns l ->
  exists s1 s2 s3,
    l = [s1; s2; s3] /\
    print_subnet_info zero_division_text vpc_id self new_prefix
    = (report_head vpc_id self new_prefix
       ++ candidate_lines 1 s1 ++ candidate_lines 2 s2 ++ candidate_lines 3 s3,
       Returns tt).
Proof.
  intros Hvalid Hcall.
  pose proof (find_next_subnets_length _ _ _ _ Hcall) as Hlen.
  destruct l as [| s1 [| s2 [| s3 [| s4 l]]]]; try discriminate.
  exists s1, s2, s3. split; [reflexivity |].
  unfold print_subnet_info. rewrite print_subnet_info_try_head by exact Hvalid.
  rewrite Hcall. unfold quiet, then_print at 2.
  rewrite !print_candidates_cons. cbn [print_candidates fst].
  rewrite then_print_Returns. cbn [fst snd]. rewrite !app_nil_r. reflexivity.
Qed.

Lemma print_existing_bad good bad rest e :
  Forall AddressBlock good ->
  ipaddress.ip_network bad true = Raises e ->
  print_existing (good ++ bad :: rest) = (map existing_line good, Raises e).
Proof.
  intros Hgood Hbad. induction Hgood as [| b good Hb _ IH]; cbn [app print_existing map].
  - rewrite Hbad. reflexivity.
  - destruct (ip_network_AddressBlock b Hb) as (n & Hn & Hblock).
    rewrite Hn. unfold quiet. rewrite then_print_Returns, then_print_print, IH.
    cbn [fst snd app]. rewrite (is_block_num_addresses _ _ _ Hblock). reflexivity.
Qed.

(** The report reads every existing subnet, not only the last one.  An entry
    that [ip_network] refuses (host bits set, prefix length out of range)
    ends the report with its error line right after the lines of the entries
    before it: the allocator is not called and no candidate is printed,
    whatever the prefix and whatever follows the entry. *)
Theorem print_subnet_info_bad_existing zero_division_text vpc_id self new_prefix
    good bad rest e :
  existing_subnets self = good ++ bad :: rest ->
  Forall AddressBlock good ->
  ipaddress.ip_network bad true = Raises e ->
  print_subnet_info zero_division_text vpc_id self new_prefix
  = (report_header vpc_id self ++ map existing_line good
     ++ [("Error: " ++ str_message zero_division_text (exn_message e))%string],
     Returns tt).
Proof.
  intros Hexisting Hgood Hbad.
  unfold print_subnet_info, print_subnet_info_try, report_header.
  rewrite !then_print_print.
  assert (Hprint : match existing_subnets self with
                   | [] => print "No existing subnets found"
                   | _ :: _ => print_existing (existing_subnets self)
                   end = (map existing_line good, Raises e)).
  { rewrite Hexisting. destruct (good ++ bad :: rest) eqn:E.
    - destruct good; discriminate.
    - rewrite <- E. apply print_existing_bad; assumption. }
  rewrite Hprint. cbn [then_print fst snd].
  rewrite (ip_network_Raises _ _ _ Hbad). reflexivity.
Qed.

(** ** The constructor *)

Lemma insert_sorted_Permutation x l : Permutation (x :: l) (insert_sorted x l).
Proof.
  induction l as [| y rest IH]; cbn [insert_sorted]; [reflexivity |].
  destruct (text_leb x y); [reflexivity |].
  rewrite perm_swap. apply perm_skip. exact IH.
Qed.

Lemma sorted_Permutation l : Permutation l (sorted l).
Proof.
  induction l as [| x l IH]; cbn [sorted fold_right]; [reflexivity |].
  rewrite <- insert_sorted_Permutation. apply perm_skip. exact IH.
Qed.

Lemma text_leb_total a b : text_leb a b = false -> text_leb b a = true.
Proof.
  unfold text_leb. intros H.
  destruct (String.leb_total (str_cidr a) (str_cidr b)); congruence.
Qed.

Lemma insert_sorted_Sorted x l :
  Sorted (fun a b => text_leb a b = true) l ->
  Sorted (fun a b => text_leb a b = true) (insert_sorted x l).
Proof.
  induction 1 as [| y rest Hrest IH Hhd]; cbn [insert_sorted].
  - repeat constructor.
  - destruct (text_leb x y) eqn:Hxy.
    + constructor; [constructor; assumption | constructor; exact Hxy].
    + constructor; [exact IH |].
      destruct rest as [| z rest]; cbn [insert_sorted].
      * constructor. apply text_leb_total. exact Hxy.
      * destruct (text_leb x z); constructor.
        -- apply text_leb_total. exact Hxy.
        -- inversion Hhd. assumption.
Qed.

Lemma sorted_Sorted l : Sorted (fun a b => text_leb a b = true) (sorted l).
Proof.
  induction l as [| x l IH]; cbn [sorted fold_right]; [constructor |].
  apply insert_sorted_Sorted. exact IH.
Qed.

Lemma __init___Value ec2 vpc_id printed finder :
  __init__ ec2 vpc_id = (printed, Value finder) ->
  _get_vpc_cidr ec2 vpc_id = Value (vpc_cidr finder) /\
  (exists p1 p2,
      _get_existing_subnets ec2 vpc_id = (p1, Value (existing_subnets finder)) /\
      _get_availability_zones ec2 = (p2, Value (available_azs finder)) /\
      printed = p1 ++ p2).
Proof.
  unfold __init__.
  destruct (_get_vpc_cidr ec2 vpc_id) as [vpc | e]; [| discriminate].
  destruct (_get_existing_subnets ec2 vpc_id) as [p1 [existing | e]]; [| discriminate].
  destruct (_get_availability_zones ec2) as [p2 [azs | e]]; [| discriminate].
  intros [= <- <-]. split; [reflexivity |]. exists p1, p2. auto.
Qed.

(** The finder holds the subnets of the response, each once for each time it
    is listed, in the order of their texts, character by character. *)
Theorem existing_subnets_sorted_by_text ec2 vpc_id subnets printed finder :
  describe_subnets ec2 vpc_id = Responds subnets ->
  __init__ ec2 vpc_id = (printed, Value finder) ->
  Permutation subnets (existing_subnets finder) /\
  Sorted (fun a b => String.leb (str_cidr a) (str_cidr b) = true)
         (existing_subnets finder).
Proof.
  intros Hresponse Hinit.
  apply __init___Value in Hinit as (_ & p1 & p2 & Hexisting & _ & _).
  unfold _get_existing_subnets in Hexisting. rewrite Hresponse in Hexisting.
  injection Hexisting as _ <-.
  split; [apply sorted_Permutation | apply sorted_Sorted].
Qed.

(** A [ClientError] of [describe_subnets] is printed and then forgotten: the
    finder is built with no existing subnet, and the first candidate of every
    successful call is the first block of the parent, allocated or not. *)
Theorem subnets_error_hides_allocations ec2 vpc_id text printed finder :
  describe_subnets ec2 vpc_id = Fails (ClientError text) ->
  __init__ ec2 vpc_id = (printed, Value finder) ->
  existing_subnets finder = [] /\
  In ("Error getting subnets: " ++ text)%string printed /\
  (forall new_prefix count s l,
      find_next_subnets finder new_prefix count = Returns (s :: l) ->
      network_address s = block_first (vpc_cidr finder)).
Proof.
  intros Hresponse Hinit.
  apply __init___Value in Hinit as (_ & p1 & p2 & Hexisting & _ & ->).
  unfold _get_existing_subnets in Hexisting. rewrite Hresponse in Hexisting.
  injection Hexisting as <- Hnone. symmetry in Hnone.
  split; [exact Hnone |]. split; [left; reflexivity |].
  intros new_prefix count s l H.
  pose proof (find_next_subnets_length _ _ _ _ H) as Hlen. cbn [List.length] in Hlen.
  apply find_next_subnets_Returns_closed in H
    as (vpc_net & start & Hvpc & Hstart & Hl & Hroom).
  destruct (Hroom ltac:(lia)) as (Hp & _ & Hlo & _).
  unfold start_ip, _find_last_ip in Hstart. rewrite Hnone in Hstart.
  cbn [bind] in Hstart. injection Hstart as <-.
  apply parent_range in Hvpc as (_ & _ & Hfirst & _). rewrite Hfirst in *.
  destruct (Z.to_nat count) as [| n]; [lia |].
  unfold expected_candidates in Hl. cbn [seq map] in Hl. injection Hl as -> _.
  unfold nth_candidate, candidate. cbn [network_address].
  pose proof (floor_to_block_bounds new_prefix (block_first (vpc_cidr finder))
                ltac:(lia)).
  lia.
Qed.

(** With no label every call for at least one candidate raises. *)
Lemma find_next_subnets_no_label self new_prefix count :
  available_azs self = [] -> 1 <= count ->
  exists e, find_next_subnets self new_prefix count = Raises e.
Proof.
  intros Hazs Hcount. rewrite find_next_subnets_first_pass by exact Hcount.
  destruct (ipaddress.ip_network (vpc_cidr self) true) as [vpc_net | e |] eqn:Hvpc;
    cbn [bind]; [| exists e; reflexivity | elim (ip_network_not_OutOfFuel _ _ Hvpc)].
  destruct (start_ip self vpc_net) as [start | e |] eqn:Hstart; cbn [bind];
    [| exists e; reflexivity | elim (start_ip_not_OutOfFuel _ _ Hstart)].
  destruct (loop_body_rejects self vpc_net new_prefix [] start Hvpc
              ltac:(right; right; right; exact Hazs)) as (e & ->).
  exists e. reflexivity.
Qed.

(** A [ClientError] of [describe_availability_zones] is printed and then
    forgotten: the finder is built with no label, and then no call for one or
    more candidates returns. *)
Theorem zones_error_means_no_candidate ec2 vpc_id text printed finder :
  describe_availability_zones ec2 = Fails (ClientError text) ->
  __init__ ec2 vpc_id = (printed, Value finder) ->
  available_azs finder = [] /\
  In ("Error getting AZs: " ++ text)%string printed /\
  (forall new_prefix count, 1 <= count ->
      exists e, find_next_subnets finder new_prefix count = Raises e).
Proof.
  intros Hresponse Hinit.
  apply __init___Value in Hinit as (_ & p1 & p2 & _ & Hazs & ->).
  unfold _get_availability_zones in Hazs. rewrite Hresponse in Hazs.
  injection Hazs as <- Hnone. symmetry in Hnone.
  split; [exact Hnone |].
  split; [apply in_or_app; right; left; reflexivity |].
  intros new_prefix count Hcount.
  apply find_next_subnets_no_label; assumption.
Qed.

(** ** main *)

Lemma parse_prefix_Value int text p :
  parse_prefix int text = Value p -> int text = Value p /\ 16 <= p <= 28.
Proof.
  unfold parse_prefix. destruct (int text) as [q | t]; [| discriminate].
  destruct (Z.leb_spec 16 q); destruct (Z.ltb_spec q 29); cbn [andb negb];
    try discriminate.
  intros [= <-]. split; [reflexivity | lia].
Qed.

Lemma block_size_command_line p : 16 <= p <= 28 -> 16 <= block_size p <= 65536.
Proof.
  intros Hp. unfold block_size. split.
  - change 16 with (2 ^ 4). apply Z.pow_le_mono_r; lia.
  - change 65536 with (2 ^ 16). apply Z.pow_le_mono_r; lia.
Qed.

(** [main] gives the allocator only prefix lengths from 16 to 28, and asks for
    three candidates.  When [main] returns, the command line had two or three
    arguments, the second spelled a prefix length from 16 to 28, the
    constructor returned a finder, and what was printed is what the
    constructor printed followed by the report; every candidate the call of
    the report returns has from 14 to 65534 usable addresses and a usable
    range that lies strictly inside the block. *)
Theorem main_prefix_gate int boto3_client zero_division_text argv out :
  main int boto3_client zero_division_text argv = (out, Finished) ->
  exists subnet_prefix region printed finder,
    (List.length argv = 3%nat /\ region = None \/
     List.length argv = 4%nat /\ region = Some (nth 3 argv ""%string)) /\
    int (nth 2 argv ""%string) = Value subnet_prefix /\
    16 <= subnet_prefix <= 28 /\
    __init__ (boto3_client region) (nth 1 argv ""%string) = (printed, Value finder) /\
    out = printed
          ++ fst (print_subnet_info zero_division_text (nth 1 argv ""%string)
                    finder subnet_prefix) /\
    (forall l, find_next_subnets finder subnet_prefix 3 = Returns l ->
       Forall (fun s =>
                 14 <= usable_ips s <= 65534 /\
                 network_address s < first_usable s /\
                 first_usable s <= last_usable s /\
                 last_usable s < broadcast_address s) l).
Proof.
  unfold main. intros H.
  destruct (negb ((List.length argv =? 3)%nat || (List.length argv =? 4)%nat))
    eqn:Hlen; [discriminate |].
  apply negb_false_iff, orb_true_iff in Hlen.
  destruct (parse_prefix int (nth 2 argv ""%string)) as [p | t] eqn:Hparse;
    [| discriminate].
  apply parse_prefix_Value in Hparse as [Hint Hp].
  cbv zeta in H.
  set (region := if (List.length argv =? 4)%nat then Some (nth 3 argv ""%string)
                 else None) in *.
  destruct (__init__ (boto3_client region) (nth 1 argv ""%string))
    as [printed [finder | e]] eqn:Hinit; [| discriminate].
  injection H as <-.
  exists p, region, printed, finder.
  split.
  { subst region. destruct Hlen as [Hlen | Hlen]; apply Nat.eqb_eq in Hlen;
      rewrite Hlen; [left | right]; split; reflexivity. }
  split; [exact Hint |]. split; [exact Hp |]. split; [exact Hinit |].
  split; [reflexivity |].
  intros l Hcall. apply find_next_subnets_Returns_closed in Hcall
    as (_ & start & _ & _ & -> & _).
  pose proof (block_size_command_line p Hp) as Hsize.
  apply Forall_forall. intros s Hin.
  apply In_nth_error in Hin as [i Hi]. apply nth_error_map_seq in Hi as [-> _].
  unfold nth_candidate, candidate.
  cbn [usable_ips network_address first_usable last_usable broadcast_address].
  lia.
Qed.

(** A command line that [main] refuses never reaches the API: with a number
    of arguments other than two or three, or a second argument that [int]
    refuses or that is not from 16 to 28, [main] prints the usage or one error
    line and exits with code 1, whatever the client would answer. *)
Theorem main_rejects_bad_arguments int boto3_client boto3_client' zero_division_text
    argv :
  (List.length argv <> 3%nat /\ List.length argv <> 4%nat) \/
  (exists text, int (nth 2 argv ""%string) = Exception text) \/
  (exists p, int (nth 2 argv ""%string) = Value p /\ (p < 16 \/ 28 < p)) ->
  main int boto3_client zero_division_text argv
  = main int boto3_client' zero_division_text argv /\
  snd (main int boto3_client zero_division_text argv) = SystemExit 1 /\
  (fst (main int boto3_client zero_division_text argv) = usage \/
   exists text,
     fst (main int boto3_client zero_division_text argv)
     = [("Error: " ++ text)%string]).
Proof.
  intros Hbad. unfold main.
  destruct (negb ((List.length argv =? 3)%nat || (List.length argv =? 4)%nat))
    eqn:Hlen.
  { split; [reflexivity |]. split; [reflexivity |]. left. reflexivity. }
  apply negb_false_iff, orb_true_iff in Hlen.
  assert (Hparse : exists text,
             parse_prefix int (nth 2 argv ""%string) = Exception text).
  { destruct Hbad as [[H3 H4] | [[text Hint] | (p & Hint & Hp)]].
    - destruct Hlen as [Hlen | Hlen]; apply Nat.eqb_eq in Hlen; contradiction.
    - exists text. unfold parse_prefix. rewrite Hint. reflexivity.
    - eexists. unfold parse_prefix. rewrite Hint.
      destruct (Z.leb_spec 16 p); destruct (Z.ltb_spec p 29); cbn [andb negb];
        try reflexivity; lia. }
  destruct Hparse as [text ->].
  split; [reflexivity |]. split; [reflexivity |]. right. exists text. reflexivity.
Qed.

(** [main] does not catch the exceptions of the constructor.  With a command
    line it accepts, a [ClientError] of [describe_vpcs] ends [main] with
    nothing printed and an exception that nothing catches: the [ValueError]
    ["VPC ... not found!"] when the text of the error contains
    [InvalidVpcID.NotFound], the [ClientError] itself otherwise. *)
Theorem main_missing_vpc_uncaught int boto3_client zero_division_text argv
    subnet_prefix region text :
  (List.length argv = 3%nat /\ region = None \/
   List.length argv = 4%nat /\ region = Some (nth 3 argv ""%string)) ->
  int (nth 2 argv ""%string) = Value subnet_prefix ->
  16 <= subnet_prefix <= 28 ->
  describe_vpcs (boto3_client region) (nth 1 argv ""%string)
  = Fails (ClientError text) ->
  main int boto3_client zero_division_text argv
  = ([], Uncaught (if contains "InvalidVpcID.NotFound" text
                   then VpcNotFound (nth 1 argv ""%string)
                   else ApiException (ClientError text))).
Proof.
  intros Hlen Hint Hp Hvpcs. unfold main.
  assert (Hregion : (if (List.length argv =? 4)%nat
                     then Some (nth 3 argv ""%string) else None) = region).
  { destruct Hlen as [[Hlen ->] | [Hlen ->]]; rewrite Hlen; reflexivity. }
  assert (Hok : negb ((List.length argv =? 3)%nat || (List.length argv =? 4)%nat)
                = false).
  { destruct Hlen as [[Hlen _] | [Hlen _]]; rewrite Hlen; reflexivity. }
  rewrite Hok. unfold parse_prefix. rewrite Hint.
  destruct (Z.leb_spec 16 subnet_prefix); [| lia].
  destruct (Z.ltb_spec subnet_prefix 29); [| lia].
  cbn [andb negb]. cbv zeta. rewrite Hregion.
  unfold __init__, _get_vpc_cidr. rewrite Hvpcs.
  destruct (contains "InvalidVpcID.NotFound" text); reflexivity.
Qed.

(** ** The order of texts is not the order of addresses *)

Lemma string_compare_app p : forall s t,
  String.compare (p ++ s) (p ++ t) = String.compare s t.
Proof.
  induction p as [| c p IH]; intros s t; cbn [append String.compare];
    [reflexivity |].
  unfold Ascii.compare. rewrite N.compare_refl. apply IH.
Qed.

Lemma string_app_assoc (s t u : string) : ((s ++ t) ++ u = s ++ (t ++ u))%string.
Proof.
  induction s as [| c s IH]; cbn [append]; [reflexivity |]. rewrite IH. reflexivity.
Qed.

(** The four numbers of the text of [a.b.c.d]. *)
Lemma str_IPv4Address_dotted a b c d :
  0 <= a <= 255 -> 0 <= b <= 255 -> 0 <= c <= 255 -> 0 <= d <= 255 ->
  str_IPv4Address (dotted a b c d)
  = (str_int a ++ "." ++ str_int b ++ "." ++ str_int c ++ "." ++ str_int d)%string.
Proof.
  intros Ha Hb Hc Hd. unfold str_IPv4Address, dotted.
  change (2 ^ 24) with 16777216. change (2 ^ 16) with 65536. change (2 ^ 8) with 256.
  replace ((a * 16777216 + b * 65536 + c * 256 + d) / 16777216 mod 256) with a
    by (Z.div_mod_to_equations; lia).
  replace ((a * 16777216 + b * 65536 + c * 256 + d) / 65536 mod 256) with b
    by (Z.div_mod_to_equations; lia).
  replace ((a * 16777216 + b * 65536 + c * 256 + d) / 256 mod 256) with c
    by (Z.div_mod_to_equations; lia).
  replace ((a * 16777216 + b * 65536 + c * 256 + d) mod 256) with d
    by (Z.div_mod_to_equations; lia).
  reflexivity.
Qed.

(** ["a.b.9.0/24"] comes after ["a.b.10.0/24"]. *)
Lemma text_leb_9_10 a b :
  0 <= a <= 255 -> 0 <= b <= 255 ->
  text_leb (mk_cidr (dotted a b 9 0) 24) (mk_cidr (dotted a b 10 0) 24) = false.
Proof.
  intros Ha Hb. unfold text_leb, str_cidr, String.leb.
  cbn [cidr_address cidr_prefix].
  rewrite !str_IPv4Address_dotted by lia.
  rewrite !string_app_assoc, string_compare_app.
  cbn [append String.compare]. change ("." ?= ".")%char with Eq. cbv iota.
  rewrite string_compare_app.
  vm_compute. reflexivity.
Qed.

(** The finder can hand out a subnet that exists.  The constructor sorts the
    subnets by text, so with [a.b.9.0/24] and [a.b.10.0/24] in the parent
    [a.b.0.0/16] the last entry is [a.b.9.0/24]; the scan starts after it, and
    the first of three /24 candidates is [a.b.10.0/24]. *)
Theorem text_order_hands_out_existing_subnet ec2 vpc_id a b az azs :
  0 <= a <= 255 -> 0 <= b <= 255 ->
  describe_vpcs ec2 vpc_id = Responds [mk_cidr (dotted a b 0 0) 16] ->
  describe_subnets ec2 vpc_id
  = Responds [mk_cidr (dotted a b 9 0) 24; mk_cidr (dotted a b 10 0) 24] ->
  describe_availability_zones ec2 = Responds (az :: azs) ->
  exists finder first rest,
    __init__ ec2 vpc_id = ([], Value finder) /\
    existing_subnets finder
    = [mk_cidr (dotted a b 10 0) 24; mk_cidr (dotted a b 9 0) 24] /\
    find_next_subnets finder 24 3 = Returns (first :: rest) /\
    cidr_block first = mk_cidr (dotted a b 10 0) 24 /\
    In (cidr_block first) (existing_subnets finder).
Proof.
  intros Ha Hb Hvpcs Hsubnets Hzones.
  set (finder := {| vpc_cidr := mk_cidr (dotted a b 0 0) 16;
                    existing_subnets :=
                      [mk_cidr (dotted a b 10 0) 24; mk_cidr (dotted a b 9 0) 24];
                    available_azs := az :: azs |}).
  assert (Hinit : __init__ ec2 vpc_id = ([], Value finder)).
  { unfold __init__, _get_vpc_cidr, _get_existing_subnets, _get_availability_zones.
    rewrite Hvpcs, Hsubnets, Hzones. unfold sorted. cbn [fold_right insert_sorted].
    rewrite text_leb_9_10 by assumption. reflexivity. }
  assert (H256 : block_size 24 = 256) by reflexivity.
  assert (H65536 : block_size 16 = 65536) by reflexivity.
  assert (Hparent : AddressBlock (vpc_cidr finder)).
  { unfold AddressBlock. cbn [finder vpc_cidr cidr_prefix cidr_address].
    rewrite H65536, ALL_ONES_value. unfold dotted.
    change (2 ^ 24) with 16777216. change (2 ^ 16) with 65536. change (2 ^ 8) with 256.
    split; [lia |]. split; [lia |]. Z.div_mod_to_equations. lia. }
  destruct (ip_network_AddressBlock _ Hparent) as (vpc_net & Hvpc & _).
  assert (Hlast : AddressBlock (mk_cidr (dotted a b 9 0) 24)).
  { unfold AddressBlock. cbn [cidr_prefix cidr_address].
    rewrite H256, ALL_ONES_value. unfold dotted.
    change (2 ^ 24) with 16777216. change (2 ^ 16) with 65536. change (2 ^ 8) with 256.
    split; [lia |]. split; [lia |]. Z.div_mod_to_equations. lia. }
  assert (Hstart : start_ip finder vpc_net = Returns (dotted a b 10 0)).
  { rewrite (start_ip_after_last finder vpc_net [mk_cidr (dotted a b 10 0) 24]
               (mk_cidr (dotted a b 9 0) 24) eq_refl Hlast).
    unfold block_last. cbn [cidr_address cidr_prefix]. rewrite H256.
    replace (dotted a b 9 0 + 256 - 1 + 1) with (dotted a b 10 0)
      by (unfold dotted; lia).
    apply IPv4Address_in_range. rewrite ALL_ONES_value. unfold dotted.
    change (2 ^ 24) with 16777216. change (2 ^ 16) with 65536. change (2 ^ 8) with 256.
    lia. }
  assert (Hfloor : floor_to_block 24 (dotted a b 10 0) = dotted a b 10 0).
  { replace (dotted a b 10 0) with ((a * 65536 + b * 256 + 10) * block_size 24).
    - apply floor_to_block_multiple. lia.
    - rewrite H256. unfold dotted.
      change (2 ^ 24) with 16777216. change (2 ^ 16) with 65536.
      change (2 ^ 8) with 256. lia. }
  assert (Hroom : has_room finder 24 3 (dotted a b 10 0)).
  { unfold has_room. rewrite Hfloor, H256, ALL_ONES_value.
    unfold block_first, block_last. cbn [finder vpc_cidr available_azs cidr_address
                                          cidr_prefix].
    rewrite H65536. unfold dotted.
    change (2 ^ 24) with 16777216. change (2 ^ 16) with 65536. change (2 ^ 8) with 256.
    repeat split; try lia. discriminate. }
  pose proof (find_next_subnets_has_room finder vpc_net (dotted a b 10 0) 24 3
                Hvpc Hstart ltac:(lia) Hroom) as Hcall.
  change (Z.to_nat 3) with 3%nat in Hcall.
  unfold expected_candidates in Hcall. cbn [seq map] in Hcall.
  eexists finder, _, _. split; [exact Hinit |]. split; [reflexivity |].
  split; [exact Hcall |].
  assert (Hblock : cidr_block (nth_candidate finder 24 (floor_to_block 24 (dotted a b 10 0)) 0)
                   = mk_cidr (dotted a b 10 0) 24).
  { unfold nth_candidate, candidate. cbn [cidr_block]. rewrite Hfloor.
    f_equal. cbn [Z.of_nat]. lia. }
  split; [exact Hblock |]. rewrite Hblock. left. reflexivity.
Qed.

(** ** The ends of the address space *)

(** No candidate ends at 255.255.255.255 and none is 0.0.0.0/32, even in a
    parent that holds these addresses: the address after the candidate and the
    one before its broadcast address must exist. *)
Theorem candidates_inside_address_space self new_prefix count l :
  find_next_subnets self new_prefix count = Returns l ->
  Forall (fun s => 1 <= broadcast_address s < ipaddress.ALL_ONES) l.
Proof.
  intros H. apply find_next_subnets_Returns_closed in H
    as (_ & start & _ & _ & -> & Hroom).
  apply Forall_forall. intros s Hin.
  apply In_nth_error in Hin as [i Hi].
  apply expected_candidates_nth in Hi as (Hi & Hnet & Hbc & _).
  destruct (Hroom ltac:(lia)) as (Hp & _ & _ & _ & Htop & Hbottom).
  pose proof (block_size_pos new_prefix ltac:(lia)). nia.
Qed.

(** ** Instances of the facts above *)

Lemma find_next_subnets_closed_form_witness :
  find_next_subnets finder_empty_16 24 3 = Returns three_blocks /\
  exists vpc_net start,
    ipaddress.ip_network (vpc_cidr finder_empty_16) true = Returns vpc_net /\
    start_ip finder_empty_16 vpc_net = Returns start /\
    three_blocks
    = map (fun i =>
             candidate (floor_to_block 24 start + Z.of_nat i * block_size 24) 24
                       (label_at (available_azs finder_empty_16) i))
          (seq 0 (Z.to_nat 3)).
Proof.
  split; [vm_compute; reflexivity |].
  apply (find_next_subnets_closed_form finder_empty_16 24 3 three_blocks).
  vm_compute; reflexivity.
Defined.

Lemma find_next_subnets_returns_iff_room_witness :
  let vpc_net :=
    ipaddress.mk_network (dotted 10 0 0 0) (ipaddress.ip_int_from_prefix 16) 16 in
  ipaddress.ip_network (vpc_cidr finder_empty_16) true = Returns vpc_net /\
  start_ip finder_empty_16 vpc_net = Returns (dotted 10 0 0 0) /\
  (has_room finder_empty_16 24 3 (dotted 10 0 0 0)
   <-> exists l, find_next_subnets finder_empty_16 24 3 = Returns l).
Proof.
  cbv zeta.
  assert (Hvpc : ipaddress.ip_network (vpc_cidr finder_empty_16) true
                 = Returns (ipaddress.mk_network (dotted 10 0 0 0)
                              (ipaddress.ip_int_from_prefix 16) 16))
    by (vm_compute; reflexivity).
  assert (Hstart : start_ip finder_empty_16
                     (ipaddress.mk_network (dotted 10 0 0 0)
                        (ipaddress.ip_int_from_prefix 16) 16)
                   = Returns (dotted 10 0 0 0))
    by (vm_compute; reflexivity).
  split; [exact Hvpc |]. split; [exact Hstart |].
  apply (find_next_subnets_returns_iff_room finder_empty_16 _ _ 24 3 Hvpc Hstart).
  lia.
Defined.

Lemma candidates_adjacent_witness :
  find_next_subnets finder_empty_16 24 3 = Returns three_blocks /\
  network_address (candidate (dotted 10 0 1 0) 24 "b")
  = broadcast_address (candidate (dotted 10 0 0 0) 24 "a") + 1.
Proof.
  split; [vm_compute; reflexivity |].
  apply (proj1 (candidates_adjacent finder_empty_16 24 3 three_blocks
                  ltac:(vm_compute; reflexivity)) 0%nat); reflexivity.
Defined.

Lemma find_next_subnets_count_monotone_witness :
  find_next_subnets finder_empty_16 24 3 = Returns three_blocks /\
  find_next_subnets finder_empty_16 24 1 = Returns (firstn (Z.to_nat 1) three_blocks).
Proof.
  split; [vm_compute; reflexivity |].
  apply (proj1 (find_next_subnets_count_monotone finder_empty_16 24 1 3
                  ltac:(lia))).
  vm_compute; reflexivity.
Defined.

Lemma find_next_subnets_incremental_witness :
  find_next_subnets finder_empty_16 24 (1 + 2) = Returns three_blocks /\
  exists l',
    find_next_subnets (commit finder_empty_16 (firstn (Z.to_nat 1) three_blocks)) 24 2
    = Returns l' /\
    map placement three_blocks
    = map placement (firstn (Z.to_nat 1) three_blocks) ++ map placement l'.
Proof.
  split; [vm_compute; reflexivity |].
  apply (find_next_subnets_incremental finder_empty_16 24 1 2 three_blocks);
    [lia | lia | vm_compute; reflexivity].
Defined.

Lemma find_next_subnets_error_kinds_witness :
  let e := ValueError (msg_error_calculating
                         (msg_no_more_space (vpc_cidr finder_empty_16) 8)) in
  find_next_subnets finder_empty_16 8 1 = Raises e /\
  (is_ValueError e = true \/
   (e = ZeroDivisionError msg_modulo_by_zero /\ available_azs finder_empty_16 = [])).
Proof.
  cbv zeta. split; [vm_compute; reflexivity |].
  apply (find_next_subnets_error_kinds finder_empty_16 8 1).
  vm_compute; reflexivity.
Defined.

Lemma labels_do_not_affect_placement_witness :
  outcome_map (map placement) (find_next_subnets finder_empty_16 24 3)
  = outcome_map (map placement)
      (find_next_subnets
         (mk_finder (vpc_cidr finder_empty_16) (existing_subnets finder_empty_16)
            ["z"%string]) 24 3).
Proof.
  apply labels_do_not_affect_placement;
    [reflexivity | reflexivity | discriminate | discriminate].
Defined.

Lemma candidates_above_allocations_witness :
  find_next_subnets finder_after_two_26 26 2 = Returns two_blocks_26 /\
  Forall (fun s =>
            Forall (fun b => candidate_overlaps s b = false)
                   (existing_subnets finder_after_two_26))
         two_blocks_26.
Proof.
  split; [vm_compute; reflexivity |].
  apply (candidates_above_allocations finder_after_two_26 26 2 two_blocks_26
           [mk_cidr (dotted 10 0 0 0) 26] (mk_cidr (dotted 10 0 0 64) 26)).
  - vm_compute; reflexivity.
  - reflexivity.
  - repeat constructor; vm_compute; congruence.
  - repeat constructor; vm_compute; congruence.
  - repeat constructor.
  - cbn [cidr_prefix]. lia.
Defined.

Lemma candidates_inside_address_space_witness :
  find_next_subnets finder_empty_16 24 3 = Returns three_blocks /\
  Forall (fun s => 1 <= broadcast_address s < ipaddress.ALL_ONES) three_blocks.
Proof.
  split; [vm_compute; reflexivity |].
  apply (candidates_inside_address_space finder_empty_16 24 3).
  vm_compute; reflexivity.
Defined.

Lemma print_subnet_info_failure_witness :
  let e := ValueError (msg_error_calculating
                         (msg_no_more_space (vpc_cidr finder_after_two_26) 26)) in
  Forall AddressBlock (existing_subnets finder_after_two_26) /\
  find_next_subnets finder_after_two_26 26 3 = Raises e /\
  print_subnet_info "integer modulo by zero" "vpc-1" finder_after_two_26 26
  = (report_head "vpc-1" finder_after_two_26 26
     ++ [error_line "integer modulo by zero" e], Returns tt).
Proof.
  cbv zeta.
  assert (Hvalid : Forall AddressBlock (existing_subnets finder_after_two_26))
    by (repeat constructor; vm_compute; congruence).
  assert (Hcall : find_next_subnets finder_after_two_26 26 3
                  = Raises (ValueError (msg_error_calculating
                                          (msg_no_more_space
                                             (vpc_cidr finder_after_two_26) 26))))
    by (vm_compute; reflexivity).
  split; [exact Hvalid |]. split; [exact Hcall |].
  exact (proj1 (print_subnet_info_failure "integer modulo by zero" "vpc-1"
                  finder_after_two_26 26 _ Hvalid Hcall)).
Defined.

Lemma print_subnet_info_success_witness :
  Forall AddressBlock (existing_subnets finder_empty_16) /\
  find_next_subnets finder_empty_16 24 3 = Returns three_blocks /\
  exists s1 s2 s3,
    three_blocks = [s1; s2; s3] /\
    print_subnet_info "integer modulo by zero" "vpc-1" finder_empty_16 24
    = (report_head "vpc-1" finder_empty_16 24
       ++ candidate_lines 1 s1 ++ candidate_lines 2 s2 ++ candidate_lines 3 s3,
       Returns tt).
Proof.
  assert (Hvalid : Forall AddressBlock (existing_subnets finder_empty_16))
    by constructor.
  assert (Hcall : find_next_subnets finder_empty_16 24 3 = Returns three_blocks)
    by (vm_compute; reflexivity).
  split; [exact Hvalid |]. split; [exact Hcall |].
  exact (print_subnet_info_success "integer modulo by zero" "vpc-1"
           finder_empty_16 24 three_blocks Hvalid Hcall).
Defined.

Lemma print_subnet_info_bad_existing_witness :
  let self := mk_finder (mk_cidr (dotted 10 0 0 0) 24)
                [mk_cidr (dotted 10 0 0 0) 26; mk_cidr (dotted 10 0 0 65) 26;
                 mk_cidr (dotted 10 0 0 128) 26]
                ["a"%string] in
  let e := ValueError (msg_host_bits_set (mk_cidr (dotted 10 0 0 65) 26)) in
  ipaddress.ip_network (mk_cidr (dotted 10 0 0 65) 26) true = Raises e /\
  print_subnet_info "integer modulo by zero" "vpc-1" self 27
  = (report_header "vpc-1" self
     ++ map existing_line [mk_cidr (dotted 10 0 0 0) 26]
     ++ ["Error: 10.0.0.65/26 has host bits set"%string],
     Returns tt).
Proof.
  cbv zeta.
  assert (Hbad : ipaddress.ip_network (mk_cidr (dotted 10 0 0 65) 26) true
                 = Raises (ValueError (msg_host_bits_set (mk_cidr (dotted 10 0 0 65) 26))))
    by (vm_compute; reflexivity).
  split; [exact Hbad |].
  assert (Hgood : Forall AddressBlock [mk_cidr (dotted 10 0 0 0) 26])
    by (repeat constructor; vm_compute; congruence).
  exact (print_subnet_info_bad_existing "integer modulo by zero" "vpc-1"
           (mk_finder (mk_cidr (dotted 10 0 0 0) 24)
              [mk_cidr (dotted 10 0 0 0) 26; mk_cidr (dotted 10 0 0 65) 26;
               mk_cidr (dotted 10 0 0 128) 26]
              ["a"%string])
           27
           [mk_cidr (dotted 10 0 0 0) 26] (mk_cidr (dotted 10 0 0 65) 26)
           [mk_cidr (dotted 10 0 0 128) 26]
           (ValueError (msg_host_bits_set (mk_cidr (dotted 10 0 0 65) 26)))
           eq_refl Hgood Hbad).
Defined.

Lemma existing_subnets_sorted_by_text_witness :
  let finder := mk_finder (mk_cidr (dotted 10 0 0 0) 16)
                  [mk_cidr (dotted 10 0 10 0) 24; mk_cidr (dotted 10 0 9 0) 24]
                  ["a"%string] in
  __init__ client_9_10 "vpc-1" = ([], Value finder) /\
  Permutation [mk_cidr (dotted 10 0 9 0) 24; mk_cidr (dotted 10 0 10 0) 24]
              (existing_subnets finder) /\
  Sorted (fun a b => String.leb (str_cidr a) (str_cidr b) = true)
         (existing_subnets finder).
Proof.
  cbv zeta. split; [vm_compute; reflexivity |].
  apply (existing_subnets_sorted_by_text client_9_10 "vpc-1" _ []);
    [reflexivity | vm_compute; reflexivity].
Defined.

Lemma subnets_error_hides_allocations_witness :
  let ec2 := client_of (Responds [mk_cidr (dotted 10 0 0 0) 16])
                       (Fails (ClientError "UnauthorizedOperation"))
                       (Responds ["a"; "b"; "c"]%string) in
  __init__ ec2 "vpc-1" = (["Error getting subnets: UnauthorizedOperation"%string],
                          Value finder_empty_16) /\
  existing_subnets finder_empty_16 = [] /\
  In "Error getting subnets: UnauthorizedOperation"%string
     ["Error getting subnets: UnauthorizedOperation"%string] /\
  (forall new_prefix count s l,
      find_next_subnets finder_empty_16 new_prefix count = Returns (s :: l) ->
      network_address s = block_first (vpc_cidr finder_empty_16)).
Proof.
  cbv zeta. split; [vm_compute; reflexivity |].
  apply (subnets_error_hides_allocations
           (client_of (Responds [mk_cidr (dotted 10 0 0 0) 16])
                      (Fails (ClientError "UnauthorizedOperation"))
                      (Responds ["a"; "b"; "c"]%string))
           "vpc-1" "UnauthorizedOperation");
    [reflexivity | vm_compute; reflexivity].
Defined.

Lemma zones_error_means_no_candidate_witness :
  let ec2 := client_of (Responds [mk_cidr (dotted 10 0 0 0) 16]) (Responds [])
                       (Fails (ClientError "UnauthorizedOperation")) in
  let finder := mk_finder (mk_cidr (dotted 10 0 0 0) 16) [] [] in
  __init__ ec2 "vpc-1" = (["Error getting AZs: UnauthorizedOperation"%string],
                          Value finder) /\
  available_azs finder = [] /\
  In "Error getting AZs: UnauthorizedOperation"%string
     ["Error getting AZs: UnauthorizedOperation"%string] /\
  (forall new_prefix count, 1 <= count ->
      exists e, find_next_subnets finder new_prefix count = Raises e).
Proof.
  cbv zeta. split; [vm_compute; reflexivity |].
  apply (zones_error_means_no_candidate
           (client_of (Responds [mk_cidr (dotted 10 0 0 0) 16]) (Responds [])
                      (Fails (ClientError "UnauthorizedOperation")))
           "vpc-1" "UnauthorizedOperation");
    [reflexivity | vm_compute; reflexivity].
Defined.

Lemma main_prefix_gate_witness :
  let argv := ["subnet_finder.py"; "vpc-1"; "24"]%string in
  let out := fst (main int_8_24 (fun _ => client_9_10) "integer modulo by zero" argv) in
  main int_8_24 (fun _ => client_9_10) "integer modulo by zero" argv = (out, Finished) /\
  exists subnet_prefix region printed finder,
    (List.length argv = 3%nat /\ region = None \/
     List.length argv = 4%nat /\ region = Some (nth 3 argv ""%string)) /\
    int_8_24 (nth 2 argv ""%string) = Value subnet_prefix /\
    16 <= subnet_prefix <= 28 /\
    __init__ ((fun _ => client_9_10) region) (nth 1 argv ""%string)
    = (printed, Value finder) /\
    out = printed
          ++ fst (print_subnet_info "integer modulo by zero" (nth 1 argv ""%string)
                    finder subnet_prefix) /\
    (forall l, find_next_subnets finder subnet_prefix 3 = Returns l ->
       Forall (fun s =>
                 14 <= usable_ips s <= 65534 /\
                 network_address s < first_usable s /\
                 first_usable s <= last_usable s /\
                 last_usable s < broadcast_address s) l).
Proof.
  cbv zeta.
  assert (H : main int_8_24 (fun _ => client_9_10) "integer modulo by zero"
                ["subnet_finder.py"; "vpc-1"; "24"]%string
              = (fst (main int_8_24 (fun _ => client_9_10) "integer modulo by zero"
                        ["subnet_finder.py"; "vpc-1"; "24"]%string), Finished))
    by (vm_compute; reflexivity).
  split; [exact H |].
  exact (main_prefix_gate int_8_24 (fun _ => client_9_10) "integer modulo by zero"
           ["subnet_finder.py"; "vpc-1"; "24"]%string _ H).
Defined.

Lemma main_rejects_bad_arguments_witness :
  let argv := ["subnet_finder.py"; "vpc-1"; "8"]%string in
  int_8_24 (nth 2 argv ""%string) = Value 8 /\
  main int_8_24 (fun _ => client_9_10) "integer modulo by zero" argv
  = main int_8_24 (fun _ => client_of (Fails (OtherException "no network"))
                                      (Fails (OtherException "no network"))
                                      (Fails (OtherException "no network")))
         "integer modulo by zero" argv /\
  main int_8_24 (fun _ => client_9_10) "integer modulo by zero" argv
  = (["Error: Subnet prefix must be between /16 and /28"%string], SystemExit 1).
Proof.
  cbv zeta. split; [reflexivity |]. split; [| vm_compute; reflexivity].
  apply (main_rejects_bad_arguments int_8_24 (fun _ => client_9_10)).
  right. right. exists 8. split; [reflexivity | lia].
Defined.

Lemma main_missing_vpc_uncaught_witness :
  let text := "An error occurred (InvalidVpcID.NotFound) when calling the DescribeVpcs operation"%string in
  let boto3_client := fun _ : option string =>
    client_of (Fails (ClientError text)) (Responds []) (Responds []) in
  main int_8_24 boto3_client "integer modulo by zero"
       ["subnet_finder.py"; "vpc-1"; "24"; "us-east-1"]%string
  = ([], Uncaught (VpcNotFound "vpc-1")).
Proof.
  cbv zeta.
  apply (main_missing_vpc_uncaught int_8_24 _ "integer modulo by zero"
           ["subnet_finder.py"; "vpc-1"; "24"; "us-east-1"]%string 24
           (Some "us-east-1"%string)
           "An error occurred (InvalidVpcID.NotFound) when calling the DescribeVpcs operation").
  - right. split; reflexivity.
  - reflexivity.
  - lia.
  - reflexivity.
Defined.

Lemma text_order_hands_out_existing_subnet_witness :
  exists finder first rest,
    __init__ client_9_10 "vpc-1" = ([], Value finder) /\
    existing_subnets finder
    = [mk_cidr (dotted 10 0 10 0) 24; mk_cidr (dotted 10 0 9 0) 24] /\
    find_next_subnets finder 24 3 = Returns (first :: rest) /\
    cidr_block first = mk_cidr (dotted 10 0 10 0) 24 /\
    In (cidr_block first) (existing_subnets finder).
Proof.
  apply (text_order_hands_out_existing_subnet client_9_10 "vpc-1" 10 0 "a"%string []);
    [lia | lia | reflexivity | reflexivity | reflexivity].
Defined.
